(** * A personal assistant with long-term memory: model and properties

    Shallow embedding of [personal_agent.py]: the memory system
    ([MemorySystem]), the exchange log ([ConversationLogger]), the chat
    client ([chat_with_model]), the two generative extractors
    ([extract_facts_from_conversation], [update_profile_from_facts]) and the
    orchestrator ([PersonalAgent]).

    Python objects are dynamically typed, so memory, profile and model
    replies are values of one type [value]; an operation that Python would
    answer with an exception returns [Raise].  State (the agent's fields, the
    files, the clock, the server) is threaded explicitly, and an exception
    keeps the state reached when it was raised, as in Python. *)

From Stdlib Require Import ZArith NArith Ascii String.
From Corelib Require PrimFloat FloatOps SpecFloat.
From stdpp Require Import base option list gmap strings.

Local Open Scope N_scope.
Local Open Scope list_scope.

(** ** Python strings *)

(** A Python [str] is a sequence of Unicode code points. *)
Definition codepoint := N.
Definition pystr := list codepoint.

(** Source literals are written as UTF-8 text and decoded to code points. *)
Fixpoint bytes_of (s : string) : list N :=
  match s with
  | EmptyString => []
  | String a r => N_of_ascii a :: bytes_of r
  end.

Fixpoint utf8_decode (bs : list N) : pystr :=
  match bs with
  | [] => []
  | b0 :: r0 =>
      if b0 <? 128 then b0 :: utf8_decode r0
      else if b0 <? 224 then
        match r0 with
        | b1 :: r1 => ((b0 - 192) * 64 + (b1 - 128)) :: utf8_decode r1
        | [] => []
        end
      else if b0 <? 240 then
        match r0 with
        | b1 :: b2 :: r2 =>
            ((b0 - 224) * 4096 + (b1 - 128) * 64 + (b2 - 128)) :: utf8_decode r2
        | _ => []
        end
      else
        match r0 with
        | b1 :: b2 :: b3 :: r3 =>
            ((b0 - 240) * 262144 + (b1 - 128) * 4096 + (b2 - 128) * 64 + (b3 - 128))
              :: utf8_decode r3
        | _ => []
        end
  end.

Definition u (s : string) : pystr := utf8_decode (bytes_of s).

(** [str.isspace] on one code point: the Unicode white space that
    [str.split], [str.strip] and the regular-expression class [\s] use. *)
Definition isspace (c : codepoint) : bool :=
  ((9 <=? c) && (c <=? 13)) || ((28 <=? c) && (c <=? 32))
  || (c =? 133) || (c =? 160) || (c =? 5760)
  || ((8192 <=? c) && (c <=? 8202))
  || (c =? 8232) || (c =? 8233) || (c =? 8239) || (c =? 8287) || (c =? 12288).

(** [s.lstrip()], [s.rstrip()], [s.strip()] *)
Fixpoint lstrip (s : pystr) : pystr :=
  match s with
  | c :: r => if isspace c then lstrip r else s
  | [] => []
  end.

Definition rstrip (s : pystr) : pystr := rev (lstrip (rev s)).

Definition strip (s : pystr) : pystr := rstrip (lstrip s).

(** [s.split()]: the maximal runs of non-space characters, in order.
    [split_acc w s] carries the word being read, reversed. *)
Fixpoint split_acc (w : pystr) (s : pystr) : list pystr :=
  match s with
  | [] => match w with [] => [] | _ => [rev w] end
  | c :: r =>
      if isspace c
      then match w with [] => split_acc [] r | _ => rev w :: split_acc [] r end
      else split_acc (c :: w) r
  end.

Definition split (s : pystr) : list pystr := split_acc [] s.

(** [sep.join(parts)] *)
Fixpoint join (sep : pystr) (parts : list pystr) : pystr :=
  match parts with
  | [] => []
  | [p] => p
  | p :: r => p ++ sep ++ join sep r
  end.

(** [s.startswith(p)] *)
Fixpoint startswith (p s : pystr) : bool :=
  match p, s with
  | [], _ => true
  | a :: p', b :: s' => (a =? b) && startswith p' s'
  | _ :: _, [] => false
  end.

(** [p in s] for strings: [p] occurs somewhere in [s]. *)
Fixpoint contains (p s : pystr) : bool :=
  startswith p s || match s with [] => false | _ :: r => contains p r end.

(** [s.find(c)] for a one-character needle: the first index, or -1. *)
Fixpoint find_from (c : codepoint) (s : pystr) (i : Z) : Z :=
  match s with
  | [] => (-1)%Z
  | a :: r => if a =? c then i else find_from c r (i + 1)%Z
  end.

Definition find (c : codepoint) (s : pystr) : Z := find_from c s 0%Z.

(** [s.rfind(c)]: the last index, or -1. *)
Fixpoint rfind_from (c : codepoint) (s : pystr) (i : Z) (last : Z) : Z :=
  match s with
  | [] => last
  | a :: r => rfind_from c r (i + 1)%Z (if a =? c then i else last)
  end.

Definition rfind (c : codepoint) (s : pystr) : Z := rfind_from c s 0%Z (-1)%Z.

(** [s[a:b]] for indices [0 <= a], [0 <= b]. *)
Definition slice (s : pystr) (a b : Z) : pystr :=
  take (Z.to_nat b - Z.to_nat a)%nat (drop (Z.to_nat a) s).

(** [l[-n:]]: the last [n] elements. *)
Definition last_n {A} (n : nat) (l : list A) : list A :=
  drop (length l - n)%nat l.

(** Decimal digits of a number, for [str(n)]. *)
Fixpoint digits_fuel (fuel : nat) (n : N) (acc : pystr) : pystr :=
  match fuel with
  | O => acc
  | S f =>
      let acc' := (48 + n mod 10) :: acc in
      if n <? 10 then acc' else digits_fuel f (n / 10) acc'
  end.

Definition str_of_N (n : N) : pystr := digits_fuel (S (N.to_nat (N.log2 n))) n [].

Definition str_of_Z (z : Z) : pystr :=
  match z with
  | Zneg p => 45 :: str_of_N (Npos p)
  | _ => str_of_N (Z.to_N z)
  end.

(** ** Python values *)

(** The values that [json.load] produces and that the program stores:
    [None], booleans, integers, strings, lists, dictionaries with string
    keys, and floats, which are what a JSON number with a fraction or an
    exponent is read as.  A dictionary keeps its insertion order, so it is
    an association list; a float is a binary64 number. *)
Unset Elimination Schemes.
Inductive value : Type :=
| VNone
| VBool (b : bool)
| VInt (z : Z)
| VStr (s : pystr)
| VList (l : list value)
| VDict (d : list (pystr * value))
| VFloat (x : PrimFloat.float).
Set Elimination Schemes.

Definition dict := list (pystr * value).

(** [d.get(k)] on the association list: the first binding of [k]. *)
Fixpoint dict_get (k : pystr) (d : dict) : option value :=
  match d with
  | [] => None
  | (k', v) :: r => if bool_decide (k' = k) then Some v else dict_get k r
  end.

(** [d[k] = v]: an existing key keeps its position, a new key goes last. *)
Fixpoint dict_set (k : pystr) (v : value) (d : dict) : dict :=
  match d with
  | [] => [(k, v)]
  | (k', v') :: r =>
      if bool_decide (k' = k) then (k, v) :: r else (k', v') :: dict_set k v r
  end.

(** [d.update(e)] for a dictionary [e] *)
Definition dict_update (d e : dict) : dict :=
  fold_left (fun acc kv => dict_set kv.1 kv.2 acc) e d.

(** Python's truth value of an object *)
Definition truthy (v : value) : bool :=
  match v with
  | VNone => false
  | VBool b => b
  | VInt z => negb (z =? 0)%Z
  | VStr s => match s with [] => false | _ => true end
  | VList l => match l with [] => false | _ => true end
  | VDict d => match d with [] => false | _ => true end
  | VFloat x => negb (PrimFloat.eqb x PrimFloat.zero)
  end.

(** [x == n] for a float and an integer: Python compares the two numbers
    exactly, without converting the integer. *)
Definition float_eq_int (x : PrimFloat.float) (n : Z) : bool :=
  match FloatOps.Prim2SF x with
  | SpecFloat.S754_zero _ => (n =? 0)%Z
  | SpecFloat.S754_finite s m e =>
      let k := if s then Z.neg m else Z.pos m in
      if (0 <=? e)%Z then (k * 2 ^ e =? n)%Z else (k =? n * 2 ^ (- e))%Z
  | _ => false
  end.

(** Python's [==]: [True == 1] and [False == 0]; numbers compare by their
    value, and a NaN is equal to nothing; lists compare element by element;
    dictionaries compare key by key, whatever their order. *)
Fixpoint py_eq (a b : value) {struct a} : bool :=
  match a, b with
  | VNone, VNone => true
  | VBool x, VBool y => bool_decide (x = y)
  | VBool x, VInt y => (y =? (if x then 1 else 0))%Z
  | VInt x, VBool y => (x =? (if y then 1 else 0))%Z
  | VInt x, VInt y => (x =? y)%Z
  | VBool x, VFloat y => float_eq_int y (if x then 1 else 0)
  | VFloat x, VBool y => float_eq_int x (if y then 1 else 0)
  | VInt x, VFloat y => float_eq_int y x
  | VFloat x, VInt y => float_eq_int x y
  | VFloat x, VFloat y => PrimFloat.eqb x y
  | VStr x, VStr y => bool_decide (x = y)
  | VList x, VList y =>
      (fix go (x : list value) (y : list value) {struct x} : bool :=
         match x, y with
         | [], [] => true
         | a' :: x', b' :: y' => py_eq a' b' && go x' y'
         | _, _ => false
         end) x y
  | VDict x, VDict y =>
      (length x =? length y)%nat &&
      (fix go (x : dict) {struct x} : bool :=
         match x with
         | [] => true
         | (k, a') :: x' =>
             match dict_get k y with
             | Some b' => py_eq a' b'
             | None => false
             end && go x'
         end) x
  | _, _ => false
  end.

(** ** Text that UTF-8 cannot encode *)

(** A code point from U+D800 to U+DFFF is one half of a surrogate pair.  A
    Python string can hold one on its own ([json.loads] reads the escape
    [\ud83d] as such a string), and the UTF-8 codec refuses it. *)
Definition surrogate (c : codepoint) : bool := (55296 <=? c) && (c <=? 57343).

(** [s.encode('utf-8')] does not raise. *)
Definition str_encodable (s : pystr) : bool :=
  forallb (fun c => negb (surrogate c)) s.

(** Every string and every key inside the value can be encoded. *)
Fixpoint encodable (v : value) : bool :=
  match v with
  | VStr s => str_encodable s
  | VList l =>
      (fix all (l : list value) : bool :=
         match l with
         | [] => true
         | x :: r => encodable x && all r
         end) l
  | VDict d =>
      (fix all (d : list (pystr * value)) : bool :=
         match d with
         | [] => true
         | (k, x) :: r => str_encodable k && encodable x && all r
         end) d
  | _ => true
  end.

(** ** Exceptions *)

Inductive exn : Type :=
| KeyError
| TypeError
| AttributeError
| IndexError
| ValueError
| FileNotFoundError
| JSONDecodeError
| UnicodeEncodeError
| RequestException (description : pystr).

Inductive result (A : Type) : Type :=
| Ok (a : A)
| Raise (e : exn).
Arguments Ok {A} a.
Arguments Raise {A} e.

#[global] Instance result_ret : MRet result := fun A a => Ok a.
#[global] Instance result_bind : MBind result := fun A B f r =>
  match r with
  | Ok a => f a
  | Raise e => Raise e
  end.

(** ** Operations on objects of unknown type *)

(** [v[k]] for a string key *)
Definition getitem (v : value) (k : pystr) : result value :=
  match v with
  | VDict d => match dict_get k d with Some x => Ok x | None => Raise KeyError end
  | _ => Raise TypeError
  end.

(** [v.get(k, default)] *)
Definition get_method (v : value) (k : pystr) (default : value) : result value :=
  match v with
  | VDict d => Ok (match dict_get k d with Some x => x | None => default end)
  | _ => Raise AttributeError
  end.

(** [k in v] for a string [k] *)
Definition contains_key (k : pystr) (v : value) : result bool :=
  match v with
  | VDict d => Ok (bool_decide (is_Some (dict_get k d)))
  | VList l => Ok (existsb (py_eq (VStr k)) l)
  | VStr s => Ok (contains k s)
  | _ => Raise TypeError
  end.

(** [v[k] = x] for a string key *)
Definition setitem (v : value) (k : pystr) (x : value) : result value :=
  match v with
  | VDict d => Ok (VDict (dict_set k x d))
  | _ => Raise TypeError
  end.

(** [v.append(x)] *)
Definition append (v : value) (x : value) : result value :=
  match v with
  | VList l => Ok (VList (l ++ [x]))
  | _ => Raise AttributeError
  end.

(** [v.items()] *)
Definition items (v : value) : result dict :=
  match v with
  | VDict d => Ok d
  | _ => Raise AttributeError
  end.

(** [for x in v]: the elements of a list, the keys of a dictionary, the
    characters of a string *)
Definition iterate (v : value) : result (list value) :=
  match v with
  | VList l => Ok l
  | VDict d => Ok (map (fun kv => VStr kv.1) d)
  | VStr s => Ok (map (fun c => VStr [c]) s)
  | _ => Raise TypeError
  end.

(** [v[-n:]] *)
Definition slice_last (n : nat) (v : value) : result value :=
  match v with
  | VList l => Ok (VList (last_n n l))
  | VStr s => Ok (VStr (last_n n s))
  | _ => Raise TypeError
  end.

(** [isinstance(v, str)] *)
Definition is_str (v : value) : bool :=
  match v with VStr _ => true | _ => false end.

(** The strings of a sequence that [sep.join] accepts: every element must be
    a string. *)
Fixpoint strings_of (l : list value) : result (list pystr) :=
  match l with
  | [] => Ok []
  | VStr s :: r => r' ← strings_of r; Ok (s :: r')
  | _ :: _ => Raise TypeError
  end.

(** [sep.join(v)] *)
Definition join_value (sep : pystr) (v : value) : result pystr :=
  l ← iterate v; parts ← strings_of l; Ok (join sep parts).

(** [[f for f in l if f and isinstance(f, str)]] *)
Fixpoint nonempty_strings (l : list value) : list pystr :=
  match l with
  | [] => []
  | VStr (c :: s) :: r => (c :: s) :: nonempty_strings r
  | _ :: r => nonempty_strings r
  end.

(** The value of a library call that signals failure by an exception *)
Definition or_raise {A} (e : exn) (o : option A) : result A :=
  match o with
  | Some a => Ok a
  | None => Raise e
  end.

(** [mapM]: a comprehension whose body may raise *)
Fixpoint traverse {A B} (f : A -> result B) (l : list A) : result (list B) :=
  match l with
  | [] => Ok []
  | a :: r => b ← f a; r' ← traverse f r; Ok (b :: r')
  end.

(** ** The Python library *)

(** What the program takes from the interpreter and its standard library and
    what depends on the Unicode character database or on a parser.  The
    development is parametric in these functions; the instance
    [latin_cyrillic] below gives them for the alphabets the program's own
    patterns and stop words are written in. *)
Class Python : Type := {
  (** [s.lower()] *)
  str_lower : pystr -> pystr;
  (** [s.capitalize()] *)
  str_capitalize : pystr -> pystr;
  (** [s.isupper()] *)
  str_isupper : pystr -> bool;
  (** [s.isalpha()] *)
  str_isalpha : pystr -> bool;
  (** under [re.IGNORECASE], the pattern character [x] matches the subject
      character [c] *)
  ignorecase_eq : codepoint -> codepoint -> bool;
  (** [int(s)]; [None] stands for [ValueError] *)
  int_of_str : pystr -> option Z;
  (** [repr(v)], used when a list or a dictionary is formatted into text *)
  repr : value -> pystr;
  (** [json.loads(s)]; [None] stands for [JSONDecodeError] *)
  json_loads : pystr -> option value;
}.

(** *** Tables for Basic Latin and Cyrillic *)

Definition cp_lower (c : codepoint) : codepoint :=
  if (65 <=? c) && (c <=? 90) then c + 32
  else if (1040 <=? c) && (c <=? 1071) then c + 32
  else if (1024 <=? c) && (c <=? 1039) then c + 80
  else c.

Definition cp_upper (c : codepoint) : codepoint :=
  if (97 <=? c) && (c <=? 122) then c - 32
  else if (1072 <=? c) && (c <=? 1103) then c - 32
  else if (1104 <=? c) && (c <=? 1119) then c - 80
  else c.

Definition cp_isupper (c : codepoint) : bool :=
  ((65 <=? c) && (c <=? 90)) || ((1024 <=? c) && (c <=? 1071)).

Definition cp_islower (c : codepoint) : bool :=
  ((97 <=? c) && (c <=? 122)) || ((1072 <=? c) && (c <=? 1119)).

Definition cp_isalpha (c : codepoint) : bool := cp_isupper c || cp_islower c.

Definition cp_digit (c : codepoint) : option Z :=
  if (48 <=? c) && (c <=? 57) then Some (Z.of_N (c - 48)) else None.

(** The decimal digits of Unicode 14 (the characters of category [Nd]):
    each code point of the table is a zero, and the nine that follow it are
    the digits one to nine of the same script. *)
Definition decimal_zeros : list codepoint :=
  [48; 1632; 1776; 1984; 2406; 2534; 2662; 2790; 2918; 3046; 3174; 3302;
   3430; 3558; 3664; 3792; 3872; 4160; 4240; 6112; 6160; 6470; 6608;
   6784; 6800; 6992; 7088; 7232; 7248; 42528; 43216; 43264; 43472; 43504;
   43600; 44016; 65296; 66720; 68912; 69734; 69872; 69942; 70096; 70384;
   70736; 70864; 71248; 71360; 71472; 71904; 72016; 72784; 73040; 73120;
   92768; 92864; 93008; 120782; 120792; 120802; 120812; 120822; 123200;
   123632; 125264; 130032].

Definition decimal_digit (c : codepoint) : option Z :=
  (fun zero => Z.of_N (c - zero))
    <$> List.find (fun zero => (zero <=? c) && (c <? zero + 10)) decimal_zeros.

(** [int(s)]: white space is stripped, a sign may come first, the digits
    are decimal digits of any script, and single underscores may separate
    them. *)
Fixpoint digits_value (s : pystr) (after_digit : bool) (acc : Z) : option Z :=
  match s with
  | [] => if after_digit then Some acc else None
  | c :: r =>
      match decimal_digit c with
      | Some d => digits_value r true (10 * acc + d)%Z
      | None =>
          if (c =? 95) && after_digit then digits_value r false acc else None
      end
  end.

Definition decimal_int (s : pystr) : option Z :=
  match strip s with
  | 45 :: r => Z.opp <$> digits_value r false 0%Z
  | 43 :: r => digits_value r false 0%Z
  | r => digits_value r false 0%Z
  end.

(** [repr] of a string: single quotes unless the text has a single quote
    and no double quote; backslash, the quote and control characters are
    escaped. *)
Definition hex_digit (n : N) : codepoint := if n <? 10 then 48 + n else 87 + n.

Definition repr_char (quote : codepoint) (c : codepoint) : pystr :=
  if c =? 92 then [92; 92]
  else if c =? quote then [92; quote]
  else if c =? 10 then [92; 110]
  else if c =? 13 then [92; 114]
  else if c =? 9 then [92; 116]
  else if (c <? 32) || ((127 <=? c) && (c <=? 160)) || (c =? 173)
  then [92; 120; hex_digit (c / 16); hex_digit (c mod 16)]
  else [c].

Definition repr_str (s : pystr) : pystr :=
  let quote :=
    if existsb (N.eqb 39) s && negb (existsb (N.eqb 34) s) then 34 else 39 in
  quote :: flat_map (repr_char quote) s ++ [quote].

(** *** Decimal text and binary64 numbers *)

(** The number of decimal digits of a positive number *)
Definition decimal_length (n : Z) : Z := Z.of_nat (length (str_of_N (Z.to_N n))).

(** [float(text)] for the decimal [digits * 10 ^ exponent]: the nearest
    binary64 number, ties to even; a number too large is an infinity and
    one too small a zero. *)
Definition float_of_decimal (negative : bool) (digits exponent : Z)
    : PrimFloat.float :=
  FloatOps.SF2Prim
    (match digits with
     | Zpos d =>
         if (309 <=? decimal_length digits + exponent - 1)%Z
         then SpecFloat.S754_infinity negative
         else if (decimal_length digits + exponent <=? -324)%Z
         then SpecFloat.S754_zero negative
         else if (0 <=? exponent)%Z then
           SpecFloat.binary_normalize 53 1024
             (if negative then - (digits * 10 ^ exponent) else digits * 10 ^ exponent)%Z
             0 negative
         else
           SpecFloat.SFdiv 53 1024
             (SpecFloat.S754_finite negative d 0)
             (SpecFloat.S754_finite false (Z.to_pos (10 ^ (- exponent))) 0)
     | _ => SpecFloat.S754_zero negative
     end).

(** The shortest decimal that [float] reads back as the number
    [num / den], and among the shortest the nearest: its digits and the
    place of the decimal point before them ([0.d1d2... * 10 ^ point]). *)
Definition decimal_exponent (num den : Z) : Z :=
  if (den <=? num)%Z then decimal_length (num / den) - 1
  else
    (fix search (fuel : nat) (j : Z) : Z :=
       match fuel with
       | O => (- j)%Z
       | S fuel => if (den <=? num * 10 ^ j)%Z then (- j)%Z else search fuel (j + 1)%Z
       end) 400%nat 1%Z.

Fixpoint strip_zeros (fuel : nat) (digits place : Z) : Z * Z :=
  match fuel with
  | O => (digits, place)
  | S fuel =>
      if (digits mod 10 =? 0)%Z then strip_zeros fuel (digits / 10)%Z (place + 1)%Z
      else (digits, place)
  end.

Fixpoint shortest_decimal (fuel : nat) (n : Z) (x : PrimFloat.float)
    (num den t : Z) : Z * Z :=
  let place := (t - n + 1)%Z in
  let top := (if (0 <=? place) then num else num * 10 ^ (- place))%Z in
  let bottom := (if (0 <=? place) then den * 10 ^ place else den)%Z in
  let low := (top / bottom)%Z in
  let rest := (top mod bottom)%Z in
  let reads d := PrimFloat.eqb (float_of_decimal false d place) x in
  let near := match (2 * rest ?= bottom)%Z with
              | Lt => low
              | Gt => (low + 1)%Z
              | Eq => if Z.even low then low else (low + 1)%Z
              end in
  let far := if (near =? low)%Z then (low + 1)%Z else low in
  match fuel with
  | O => (near, place)
  | S fuel =>
      if reads near then (near, place)
      else if reads far then (far, place)
      else shortest_decimal fuel (n + 1)%Z x num den t
  end.

(** [repr(x)] and [str(x)] of a float: the shortest digits, in plain
    notation when the decimal point falls within sixteen digits to the
    right and four zeros to the left, with an exponent otherwise. *)
Definition repr_float (x : PrimFloat.float) : pystr :=
  match FloatOps.Prim2SF x with
  | SpecFloat.S754_nan => u "nan"
  | SpecFloat.S754_infinity s => if s then u "-inf" else u "inf"
  | SpecFloat.S754_zero s => if s then u "-0.0" else u "0.0"
  | SpecFloat.S754_finite s m e =>
      let num := (if (0 <=? e) then Z.pos m * 2 ^ e else Z.pos m)%Z in
      let den := (if (0 <=? e) then 1 else 2 ^ (- e))%Z in
      let '(d, place) :=
        shortest_decimal 17 1 (PrimFloat.abs x) num den (decimal_exponent num den) in
      let '(d, place) := strip_zeros 17 d place in
      let digits := str_of_N (Z.to_N d) in
      let n := Z.of_nat (length digits) in
      let point := (n + place)%Z in
      (if s then u "-" else []) ++
      (if (point <=? -4)%Z || (16 <? point)%Z then
         let e10 := (point - 1)%Z in
         take 1 digits
         ++ (if (1 <? n)%Z then u "." ++ drop 1 digits else [])
         ++ u "e" ++ (if (e10 <? 0)%Z then u "-" else u "+")
         ++ (if (Z.abs e10 <? 10)%Z then u "0" else [])
         ++ str_of_N (Z.to_N (Z.abs e10))
       else if (point <=? 0)%Z then
         u "0." ++ repeat 48 (Z.to_nat (- point)) ++ digits
       else if (n <=? point)%Z then
         digits ++ repeat 48 (Z.to_nat (point - n)) ++ u ".0"
       else
         take (Z.to_nat point) digits ++ u "." ++ drop (Z.to_nat point) digits)
  end.

Fixpoint repr_value (v : value) : pystr :=
  match v with
  | VFloat x => repr_float x
  | VNone => u "None"
  | VBool true => u "True"
  | VBool false => u "False"
  | VInt z => str_of_Z z
  | VStr s => repr_str s
  | VList l => u "[" ++ join (u ", ") (map repr_value l) ++ u "]"
  | VDict d =>
      u "{" ++
      join (u ", ")
        ((fix members (d : list (pystr * value)) : list pystr :=
            match d with
            | [] => []
            | (k, x) :: r => (repr_str k ++ u ": " ++ repr_value x) :: members r
            end) d)
      ++ u "}"
  end.

(** [json.loads].  White space is space, tab, line feed and carriage
    return; a string has no raw control character; a repeated key keeps its
    first place and its last value; [NaN], [Infinity] and [-Infinity] are
    read as floats. *)
Fixpoint skip_ws (s : pystr) : pystr :=
  match s with
  | c :: r => if (c =? 32) || (c =? 9) || (c =? 10) || (c =? 13) then skip_ws r else s
  | [] => []
  end.

Definition hex_value (c : codepoint) : option N :=
  if (48 <=? c) && (c <=? 57) then Some (c - 48)
  else if (97 <=? c) && (c <=? 102) then Some (c - 87)
  else if (65 <=? c) && (c <=? 70) then Some (c - 55)
  else None.

(** The four hexadecimal digits after [\u] *)
Definition hex4 (s : pystr) : option (N * pystr) :=
  match s with
  | a :: b :: c :: d :: r =>
      a ← hex_value a; b ← hex_value b; c ← hex_value c; d ← hex_value d;
      Some (a * 4096 + b * 256 + c * 16 + d, r)
  | _ => None
  end.

(** The text of a string after its opening quote; [acc] is reversed. *)
Fixpoint json_string (fuel : nat) (s : pystr) (acc : pystr) : option (pystr * pystr) :=
  match fuel with
  | O => None
  | S fuel =>
      match s with
      | [] => None
      | 34 :: r => Some (rev acc, r)
      | 92 :: e :: r =>
          if e =? 117 then
            '(hi, r1) ← hex4 r;
            match r1 with
            | 92 :: 117 :: r2 =>
                match hex4 r2 with
                | Some (lo, r3) =>
                    if (55296 <=? hi) && (hi <=? 56319) && (56320 <=? lo) && (lo <=? 57343)
                    then json_string fuel r3
                           ((65536 + (hi - 55296) * 1024 + (lo - 56320)) :: acc)
                    else json_string fuel r1 (hi :: acc)
                | None => json_string fuel r1 (hi :: acc)
                end
            | _ => json_string fuel r1 (hi :: acc)
            end
          else
            c ← (if e =? 34 then Some 34 else if e =? 92 then Some 92
                 else if e =? 47 then Some 47 else if e =? 98 then Some 8
                 else if e =? 102 then Some 12 else if e =? 110 then Some 10
                 else if e =? 114 then Some 13 else if e =? 116 then Some 9
                 else None);
            json_string fuel r (c :: acc)
      | c :: r => if c <? 32 then None else json_string fuel r (c :: acc)
      end
  end.

(** The digits at the head of the text, added to [acc], and their number *)
Fixpoint json_digits (s : pystr) (acc count : Z) : Z * Z * pystr :=
  match s with
  | c :: r =>
      match cp_digit c with
      | Some d => json_digits r (10 * acc + d)%Z (count + 1)%Z
      | None => (acc, count, s)
      end
  | [] => (acc, count, s)
  end.

(** A number after its sign: [0] or digits that do not start with [0],
    then a fraction of one digit at least, then an exponent.  With neither
    fraction nor exponent the number is an integer; otherwise it is the
    float that [float] reads from the text. *)
Definition json_number (negative : bool) (s : pystr) : option (value * pystr) :=
  '(whole, r) ←
    match s with
    | 48 :: r => Some (0%Z, r)
    | c :: r => d ← cp_digit c; Some ((json_digits r d 1%Z).1.1, (json_digits r d 1%Z).2)
    | [] => None
    end;
  let '(digits, places, r) :=
    match r with
    | 46 :: c :: _ =>
        match cp_digit c with
        | Some _ => json_digits (drop 1 r) whole 0%Z
        | None => (whole, 0%Z, r)
        end
    | _ => (whole, 0%Z, r)
    end in
  let exponent_part :=
    match r with
    | e :: r1 =>
        if (e =? 101) || (e =? 69) then
          let '(minus, r2) :=
            match r1 with
            | 45 :: t => (true, t)
            | 43 :: t => (false, t)
            | _ => (false, r1)
            end in
          match r2 with
          | c :: _ =>
              match cp_digit c with
              | Some _ =>
                  let '(n, _, r3) := json_digits r2 0%Z 0%Z in
                  Some ((if minus then - n else n)%Z, r3)
              | None => None
              end
          | [] => None
          end
        else None
    | [] => None
    end in
  match exponent_part with
  | Some (exponent, r) =>
      Some (VFloat (float_of_decimal negative digits (exponent - places)), r)
  | None =>
      if (places =? 0)%Z
      then Some (VInt (if negative then - whole else whole), r)
      else Some (VFloat (float_of_decimal negative digits (- places)), r)
  end.

Fixpoint json_value (fuel : nat) (s : pystr) : option (value * pystr) :=
  match fuel with
  | O => None
  | S fuel =>
      match s with
      | 110 :: 117 :: 108 :: 108 :: r => Some (VNone, r)
      | 116 :: 114 :: 117 :: 101 :: r => Some (VBool true, r)
      | 102 :: 97 :: 108 :: 115 :: 101 :: r => Some (VBool false, r)
      | 34 :: r => '(t, r) ← json_string (S (length r)) r []; Some (VStr t, r)
      | 91 :: r =>
          match skip_ws r with
          | 93 :: r => Some (VList [], r)
          | r => json_elements fuel r []
          end
      | 123 :: r =>
          match skip_ws r with
          | 125 :: r => Some (VDict [], r)
          | r => json_members fuel r []
          end
      | 78 :: 97 :: 78 :: r => Some (VFloat PrimFloat.nan, r)
      | 73 :: 110 :: 102 :: 105 :: 110 :: 105 :: 116 :: 121 :: r =>
          Some (VFloat PrimFloat.infinity, r)
      | 45 :: 73 :: 110 :: 102 :: 105 :: 110 :: 105 :: 116 :: 121 :: r =>
          Some (VFloat PrimFloat.neg_infinity, r)
      | 45 :: r => json_number true r
      | _ => json_number false s
      end
  end
with json_elements (fuel : nat) (s : pystr) (acc : list value) : option (value * pystr) :=
  match fuel with
  | O => None
  | S fuel =>
      '(x, r) ← json_value fuel s;
      match skip_ws r with
      | 44 :: r => json_elements fuel (skip_ws r) (x :: acc)
      | 93 :: r => Some (VList (rev (x :: acc)), r)
      | _ => None
      end
  end
with json_members (fuel : nat) (s : pystr) (acc : list (pystr * value)) : option (value * pystr) :=
  match fuel with
  | O => None
  | S fuel =>
      match s with
      | 34 :: r =>
          '(k, r) ← json_string (S (length r)) r [];
          match skip_ws r with
          | 58 :: r =>
              '(x, r) ← json_value fuel (skip_ws r);
              match skip_ws r with
              | 44 :: r => json_members fuel (skip_ws r) (dict_set k x acc)
              | 125 :: r => Some (VDict (dict_set k x acc), r)
              | _ => None
              end
          | _ => None
          end
      | _ => None
      end
  end.

Definition json_read (s : pystr) : option value :=
  '(v, r) ← json_value (2 * length s + 2) (skip_ws s);
  match skip_ws r with
  | [] => Some v
  | _ => None
  end.

Definition latin_cyrillic : Python := {|
  str_lower := map cp_lower;
  str_capitalize := fun s =>
    match s with
    | [] => []
    | c :: r => cp_upper c :: map cp_lower r
    end;
  str_isupper := fun s => existsb cp_isupper s && negb (existsb cp_islower s);
  str_isalpha := fun s => negb (bool_decide (s = [])) && forallb cp_isalpha s;
  ignorecase_eq := fun x c => cp_lower x =? cp_lower c;
  int_of_str := decimal_int;
  repr := repr_value;
  json_loads := json_read;
|}.

(** ** Regular expressions *)

(** The fragment of [re] that the name and nickname patterns use: literal
    characters, [\s+] and [\s*], a bracketed set of ranges repeated with
    [+], one capturing group, sequence and alternation.  Repetition is
    greedy and backtracks, as in Python. *)
Inductive charclass : Type :=
| Space
| Ranges (rs : list (codepoint * codepoint)).

Inductive regex : Type :=
| Chr (c : codepoint)
| Plus (k : charclass)
| Star (k : charclass)
| Group (r : regex)
| Seq (r1 r2 : regex)
| Alt (r1 r2 : regex).

(** The code points of a list of ranges *)
Definition range_points (r : codepoint * codepoint) : list codepoint :=
  map (fun i => r.1 + N.of_nat i) (seq 0 (N.to_nat (r.2 + 1 - r.1))).

(** After [k*]: the inputs that remain, the longest repetition first. *)
Fixpoint star_rests (ok : codepoint -> bool) (s : pystr) : list pystr :=
  match s with
  | c :: r => if ok c then star_rests ok r ++ [s] else [s]
  | [] => [[]]
  end.

Definition plus_rests (ok : codepoint -> bool) (s : pystr) : list pystr :=
  match s with
  | c :: r => if ok c then star_rests ok r else []
  | [] => []
  end.

(** The literal pattern [s] *)
Fixpoint lit_from (c : codepoint) (s : pystr) : regex :=
  match s with
  | [] => Chr c
  | c' :: r => Seq (Chr c) (lit_from c' r)
  end.

Definition lit (s : string) : regex :=
  match u s with
  | [] => Star (Ranges [])
  | c :: r => lit_from c r
  end.

Declare Scope regex_scope.
Delimit Scope regex_scope with regex.
Bind Scope regex_scope with regex.
Infix "⋅" := Seq (at level 41, right associativity) : regex_scope.
Infix "∣" := Alt (at level 42, right associativity) : regex_scope.

Section Regex.
Context `{Python}.

(** Membership in a class under [re.IGNORECASE]: white space is caseless;
    a set of ranges accepts a character that some member matches without
    regard to case. *)
Definition class_test (k : charclass) (c : codepoint) : bool :=
  match k with
  | Space => isspace c
  | Ranges rs => existsb (fun x => ignorecase_eq x c) (flat_map range_points rs)
  end.

(** [rmatch r s]: the ways [r] matches at the start of [s], in the order
    in which backtracking tries them; each gives the text of group 1, if
    the group took part, and the input that remains. *)
Fixpoint rmatch (r : regex) (s : pystr) : list (option pystr * pystr) :=
  match r with
  | Chr x =>
      match s with
      | c :: s' => if ignorecase_eq x c then [(None, s')] else []
      | [] => []
      end
  | Plus k => map (fun rest => (None, rest)) (plus_rests (class_test k) s)
  | Star k => map (fun rest => (None, rest)) (star_rests (class_test k) s)
  | Group r1 =>
      map (fun m => (Some (take (length s - length m.2) s), m.2)) (rmatch r1 s)
  | Seq r1 r2 =>
      flat_map (fun m1 =>
        map (fun m2 => (match m2.1 with Some g => Some g | None => m1.1 end, m2.2))
            (rmatch r2 m1.2))
        (rmatch r1 s)
  | Alt r1 r2 => rmatch r1 s ++ rmatch r2 s
  end.

(** [re.search(r, s, re.IGNORECASE)] followed by [match.group(1)]: the
    leftmost position at which [r] matches, and there the first match. *)
Fixpoint re_search (r : regex) (s : pystr) : option pystr :=
  match rmatch r s with
  | m :: _ => Some (default [] m.1)
  | [] =>
      match s with
      | [] => None
      | _ :: s' => re_search r s'
      end
  end.
End Regex.

(** [[А-ЯЁа-яёA-Za-z]+] inside the capturing group *)
Definition letters : charclass :=
  Ranges [(1040, 1071); (1025, 1025); (1072, 1103); (1105, 1105);
          (65, 90); (97, 122)].

Definition word : regex := Group (Plus letters).
Definition sp : regex := Plus Space.

(** ** The state of a session *)

(** A request to the chat endpoint: the payload of [requests.post].  The
    sampling options are a constant of the program and are left out. *)
Record request : Type := {
  req_model : pystr;
  req_messages : list value;
  req_stream : bool;
}.

(** What the server does with a request: the transport fails
    ([requests.post] or [raise_for_status] raises a [RequestException]), or
    a body arrives as lines of text; [cut] is the transport error that ends
    a body before it is complete. *)
Inductive http_reply : Type :=
| Unreachable (description : pystr)
| Response (lines : list pystr) (cut : option pystr).

(** The fields of [PersonalAgent], of its [MemorySystem] and of its
    [ConversationLogger], and the world around them.  A file holds the JSON
    documents written to it, in order: [json.dump] writes one, each
    [log_exchange] adds one, and [json.load] reads back the document that
    [json.dump] wrote. *)
Record State : Type := {
  (** [MemorySystem.memory] *)
  memory : value;
  (** [MemorySystem.current_session] *)
  current_session : pystr;
  (** [ConversationLogger.current_file] *)
  current_file : option string;
  (** [PersonalAgent.model] *)
  model : pystr;
  (** [PersonalAgent.conversation_history] *)
  conversation_history : list value;
  (** the file system *)
  fs : gmap string (list value);
  (** [clock n] is what the [n]-th [datetime.now().isoformat()] returns *)
  clock : nat -> pystr;
  ticks : nat;
  (** the reply of the server to the newest of the requests sent so far *)
  server : list request -> http_reply;
  sent : list request;
  (** what has been printed *)
  console : list pystr;
}.

Definition set_memory (x : value) (st : State) : State :=
  {| memory := x; current_session := current_session st;
     current_file := current_file st; model := model st;
     conversation_history := conversation_history st; fs := fs st;
     clock := clock st; ticks := ticks st; server := server st;
     sent := sent st; console := console st |}.

Definition set_current_session (x : pystr) (st : State) : State :=
  {| memory := memory st; current_session := x;
     current_file := current_file st; model := model st;
     conversation_history := conversation_history st; fs := fs st;
     clock := clock st; ticks := ticks st; server := server st;
     sent := sent st; console := console st |}.

Definition set_conversation_history (x : list value) (st : State) : State :=
  {| memory := memory st; current_session := current_session st;
     current_file := current_file st; model := model st;
     conversation_history := x; fs := fs st;
     clock := clock st; ticks := ticks st; server := server st;
     sent := sent st; console := console st |}.

Definition set_fs (x : gmap string (list value)) (st : State) : State :=
  {| memory := memory st; current_session := current_session st;
     current_file := current_file st; model := model st;
     conversation_history := conversation_history st; fs := x;
     clock := clock st; ticks := ticks st; server := server st;
     sent := sent st; console := console st |}.

Definition set_ticks (x : nat) (st : State) : State :=
  {| memory := memory st; current_session := current_session st;
     current_file := current_file st; model := model st;
     conversation_history := conversation_history st; fs := fs st;
     clock := clock st; ticks := x; server := server st;
     sent := sent st; console := console st |}.

Definition set_sent (x : list request) (st : State) : State :=
  {| memory := memory st; current_session := current_session st;
     current_file := current_file st; model := model st;
     conversation_history := conversation_history st; fs := fs st;
     clock := clock st; ticks := ticks st; server := server st;
     sent := x; console := console st |}.

Definition set_console (x : list pystr) (st : State) : State :=
  {| memory := memory st; current_session := current_session st;
     current_file := current_file st; model := model st;
     conversation_history := conversation_history st; fs := fs st;
     clock := clock st; ticks := ticks st; server := server st;
     sent := sent st; console := x |}.

(** ** Computations *)

(** A method of the program: it starts in a state and ends, with a value or
    with an exception, in a state. *)
Definition M (A : Type) : Type := State -> result A * State.

#[global] Instance M_ret : MRet M := fun A a st => (Ok a, st).
#[global] Instance M_bind : MBind M := fun A B f c st =>
  match c st with
  | (Ok a, st') => f a st'
  | (Raise e, st') => (Raise e, st')
  end.

Definition lift {A} (r : result A) : M A := fun st => (r, st).
Definition raise {A} (e : exn) : M A := fun st => (Raise e, st).
Definition gets {A} (f : State -> A) : M A := fun st => (Ok (f st), st).
Definition modify (f : State -> State) : M unit := fun st => (Ok tt, f st).

(** [try: c  except <the exceptions h accepts>: h e] *)
Definition try_except {A} (c : M A) (h : exn -> option (M A)) : M A := fun st =>
  match c st with
  | (Ok a, st') => (Ok a, st')
  | (Raise e, st') =>
      match h e with
      | Some k => k st'
      | None => (Raise e, st')
      end
  end.

(** [datetime.now().isoformat()] *)
Definition now : M pystr := fun st =>
  (Ok (clock st (ticks st)), set_ticks (S (ticks st)) st).

(** [print(s, end='')] *)
Definition print (s : pystr) : M unit :=
  modify (fun st => set_console (console st ++ [s]) st).

(** [with open(path, 'w') as f: json.dump(doc, f)], for a document that
    the file's codec can encode *)
Definition write_json (path : string) (doc : value) : M unit :=
  modify (fun st => set_fs (<[path := [doc]]> (fs st)) st).

(** [with open(path, 'w', encoding='utf-8') as f:
       json.dump(doc, f, ensure_ascii=False)], with its failure.  Opening
    the file empties it; the encoder hands the text to the file piece by
    piece, and a string that UTF-8 cannot encode raises
    [UnicodeEncodeError] in the middle of the document: what the file then
    holds is no JSON document. *)
Definition dump_json (path : string) (doc : value) : M unit :=
  if encodable doc then write_json path doc
  else
    modify (fun st => set_fs (<[path := []]> (fs st)) st);;
    raise UnicodeEncodeError.

(** [with open(path, 'a') as f: f.write(json.dumps(doc) + '\n')] *)
Definition append_json (path : string) (doc : value) : M unit :=
  modify (fun st => set_fs (<[path := default [] (fs st !! path) ++ [doc]]> (fs st)) st).

(** [with open(path, 'r') as f: json.load(f)] *)
Definition read_json (path : string) : M value := fun st =>
  match fs st !! path with
  | None => (Raise FileNotFoundError, st)
  | Some [doc] => (Ok doc, st)
  | Some _ => (Raise JSONDecodeError, st)
  end.

(** [requests.post(url, json=payload, stream=stream, timeout=300)] followed
    by [response.raise_for_status()] *)
Definition post (r : request) : M http_reply := fun st =>
  let st' := set_sent (r :: sent st) st in
  (Ok (server st (r :: sent st)), st').

(** ** The program *)

Definition q : pystr := [34].
Definition nl : pystr := [10].

(** [ord(c)] of an ASCII character *)
Definition ord (c : ascii) : codepoint := N_of_ascii c.

(** [Colors] *)
Definition YELLOW : pystr := 27 :: u "[93m".
Definition RED : pystr := 27 :: u "[91m".
Definition END : pystr := 27 :: u "[0m".

Definition MEMORY_FILE : string := "~/.personal_agent/memory.json".

(** [print_colored(text, color)] *)
Definition print_colored (text color : pystr) : M unit :=
  print (color ++ text ++ END ++ nl).

(** The sentinel of an empty memory *)
Definition MEMORY_EMPTY : pystr :=
  u "ПАМЯТЬ ПУСТАЯ: Я ещё ничего не знаю о пользователе. Это первый разговор.".

(** The stop words of [extract_facts_from_conversation] *)
Definition facts_stop_words : list pystr :=
  [u "привет"; u "пока"; u "да"; u "нет"; u "спасибо"; u "как"; u "что";
   u "где"; u "когда"].

(** The stop words of [_extract_name_directly] *)
Definition stop_words : list pystr :=
  [u "меня"; u "зовут"; u "мое"; u "я"; u "но"; u "ты"; u "можешь";
   u "звать"; u "зови"; u "привет"; u "пока"; u "да"; u "нет"; u "спасибо";
   u "пожалуйста"; u "как"; u "что"; u "где"; u "когда"; u "почему";
   u "кто"; u "это"; u "то"; u "все"; u "всё"].

Definition name_patterns : list regex :=
  [ lit "меня" ⋅ sp ⋅ lit "зовут" ⋅ sp ⋅ word;
    lit "мое" ⋅ sp ⋅ lit "имя" ⋅ sp ⋅ word;
    lit "я" ⋅ sp ⋅ lit "—" ⋅ sp ⋅ word;
    lit "я" ⋅ sp ⋅ word ⋅ (Star Space ⋅ lit "," ∣ sp ⋅ lit "но") ]%regex.

Definition nickname_patterns : list regex :=
  [ lit "но" ⋅ sp ⋅ lit "ты" ⋅ sp ⋅ lit "можешь" ⋅ sp ⋅ lit "звать" ⋅ sp ⋅ lit "меня" ⋅ sp ⋅ word;
    lit "можешь" ⋅ sp ⋅ lit "звать" ⋅ sp ⋅ lit "меня" ⋅ sp ⋅ word;
    lit "звать" ⋅ sp ⋅ lit "меня" ⋅ sp ⋅ word;
    lit "зови" ⋅ sp ⋅ lit "меня" ⋅ sp ⋅ word;
    lit "прозвище" ⋅ sp ⋅ word ]%regex.

(** The dictionary [{"role": role, "content": content}] *)
Definition message (role : string) (content : value) : value :=
  VDict [(u "role", VStr (u role)); (u "content", content)].

(** The prompt of [get_system_prompt] *)
Definition system_prompt_text (memory_context : pystr) (has_memory : bool) : pystr :=
  u "ТЫ — ПЕРСОНАЛЬНЫЙ AI-АССИСТЕНТ, который знает пользователя лично и использует всю накопленную информацию.

⚠️ КРИТИЧЕСКИ ВАЖНО — ЯЗЫК ОБЩЕНИЯ:
- ОБЯЗАТЕЛЬНО отвечай ТОЛЬКО на русском языке
- ЗАПРЕЩЕНО использовать английский, китайский или любые другие языки
- ЗАПРЕЩЕНО смешивать языки в одном ответе
- Если нужно использовать иностранное слово — транслитерируй его на русский или объясни на русском
- Все твои ответы должны быть полностью на русском языке, без исключений

О ПОЛЬЗОВАТЕЛЕ (ТОЛЬКО ТО, ЧТО Я ДЕЙСТВИТЕЛЬНО ЗНАЮ):
" ++
    memory_context ++
    u "

КРИТИЧЕСКИ ВАЖНЫЕ ПРАВИЛА:
1. НИКОГДА не выдумывай информацию о пользователе, которой нет в разделе " ++ q ++ u "О ПОЛЬЗОВАТЕЛЕ" ++ q ++ u " выше
2. НИКОГДА не упоминай прошлые разговоры, если их нет в памяти
3. НИКОГДА не придумывай имена, события, планы или факты, которых нет в памяти
4. Если в памяти написано " ++ q ++ u "ПАМЯТЬ ПУСТАЯ" ++ q ++ u " - это первый разговор, не упоминай прошлые встречи
5. Если не знаешь что-то о пользователе - честно скажи " ++ q ++ u "Я пока этого не знаю" ++ q ++ u " или " ++ q ++ u "Расскажи мне об этом" ++ q ++ u "
6. Используй ТОЛЬКО информацию из раздела " ++ q ++ u "О ПОЛЬЗОВАТЕЛЕ" ++ q ++ u " выше - ничего другого

ТВОИ ПРИНЦИПЫ:
1. Используй информацию о пользователе для персонализации ответов (только если она есть в памяти)
2. Если пользователь рассказывает что-то новое о себе, это будет сохранено автоматически
3. Относись к пользователю дружелюбно и с пониманием
4. Давай рекомендации с учётом его интересов, целей и предпочтений (если они известны)
5. Будь кратким и по существу, но теплым и эмпатичным

ВАЖНО:
- Пользователь доверяет тебе личную информацию — относись к этому с уважением
- Если не знаешь ответа на основе имеющихся данных — честно скажи " ++ q ++ u "Я пока этого не знаю" ++ q ++ u "
- Узнавай новые детали о пользователе естественным образом в беседе
- " ++
    (if has_memory
     then u "Это не первый разговор - у тебя есть память о пользователе."
     else u "Это первый разговор - память пустая, узнавай о пользователе постепенно.").

(** The prompt of [extract_facts_from_conversation] *)
Definition facts_prompt (memory_context user_message : pystr) : pystr :=
  u "Проанализируй сообщение пользователя и выдели новую информацию о нём.

КОНТЕКСТ (то, что я уже знаю):
" ++
    memory_context ++
    u "

СООБЩЕНИЕ ПОЛЬЗОВАТЕЛЯ:
" ++
    user_message ++
    u "

Верни ТОЛЬКО новые факты в формате JSON-списка строк:
[
  " ++ q ++ u "факт 1" ++ q ++ u ",
  " ++ q ++ u "факт 2" ++ q ++ u "
]

Если новой информации нет - верни пустой список [].

Важно:
- Извлекай конкретные факты (имена, даты, предпочтения, интересы)
- Если пользователь просто назвал имя (например, " ++ q ++ u "Ололо" ++ q ++ u ") - извлеки факт " ++ q ++ u "Пользователя зовут Ололо" ++ q ++ u "
- Не извлекай временные состояния (" ++ q ++ u "мне грустно" ++ q ++ u ")
- Факты должны быть постоянными (" ++ q ++ u "любит джаз" ++ q ++ u ", а не " ++ q ++ u "сейчас слушает джаз" ++ q ++ u ")
- ВСЕ факты должны быть написаны ТОЛЬКО на русском языке
".

(** The prompt of [update_profile_from_facts] *)
Definition profile_prompt
    (facts_text shown_name shown_nickname shown_age shown_location
     shown_occupation : pystr) : pystr :=
  u "Проанализируй следующие факты о пользователе и извлеки структурированную информацию для профиля.

ФАКТЫ:
" ++
    facts_text ++
    u "

ТЕКУЩИЙ ПРОФИЛЬ:
- Имя: " ++
    shown_name ++
    u "
- Прозвище: " ++
    shown_nickname ++
    u "
- Возраст: " ++
    shown_age ++
    u "
- Местоположение: " ++
    shown_location ++
    u "
- Род занятий: " ++
    shown_occupation ++
    u "

Верни ТОЛЬКО JSON объект с полями профиля, которые нужно обновить (только те, которые найдены в фактах):
{
  " ++ q ++ u "name" ++ q ++ u ": " ++ q ++ u "полное имя или null" ++ q ++ u ",
  " ++ q ++ u "nickname" ++ q ++ u ": " ++ q ++ u "прозвище или null" ++ q ++ u ",
  " ++ q ++ u "age" ++ q ++ u ": число или null,
  " ++ q ++ u "location" ++ q ++ u ": " ++ q ++ u "город/место или null" ++ q ++ u ",
  " ++ q ++ u "occupation" ++ q ++ u ": " ++ q ++ u "род занятий или null" ++ q ++ u "
}

Если информации для поля нет - верни null для этого поля.
Если поле уже заполнено и новая информация не противоречит - можно оставить null.
ВАЖНО: age должно быть ЧИСЛОМ (не строкой), например 25, а не " ++ q ++ u "25" ++ q ++ u ".

Примеры:
- Если факт: " ++ q ++ u "меня зовут Ололол, но ты можешь звать меня Ололоша" ++ q ++ u " → {" ++ q ++ u "name" ++ q ++ u ": " ++ q ++ u "Ололол" ++ q ++ u ", " ++ q ++ u "nickname" ++ q ++ u ": " ++ q ++ u "Ололоша" ++ q ++ u ", " ++ q ++ u "age" ++ q ++ u ": null, " ++ q ++ u "location" ++ q ++ u ": null, " ++ q ++ u "occupation" ++ q ++ u ": null}
- Если факт: " ++ q ++ u "мне 25 лет" ++ q ++ u " → {" ++ q ++ u "name" ++ q ++ u ": null, " ++ q ++ u "nickname" ++ q ++ u ": null, " ++ q ++ u "age" ++ q ++ u ": 25, " ++ q ++ u "location" ++ q ++ u ": null, " ++ q ++ u "occupation" ++ q ++ u ": null}
- Если факт: " ++ q ++ u "я живу в Москве" ++ q ++ u " → {" ++ q ++ u "name" ++ q ++ u ": null, " ++ q ++ u "nickname" ++ q ++ u ": null, " ++ q ++ u "age" ++ q ++ u ": null, " ++ q ++ u "location" ++ q ++ u ": " ++ q ++ u "Москва" ++ q ++ u ", " ++ q ++ u "occupation" ++ q ++ u ": null}
".

Section Program.
Context `{Python}.

(** [str(v)], as an f-string inserts a value *)
Definition format_value (v : value) : pystr :=
  match v with
  | VNone => u "None"
  | VBool true => u "True"
  | VBool false => u "False"
  | VInt z => str_of_Z z
  | VStr s => s
  | _ => repr v
  end.

(** *** MemorySystem *)

(** [MemorySystem._empty_memory] *)
Definition _empty_memory : M value :=
  created ← now;
  mret (VDict
    [(u "user_profile", VDict
        [(u "name", VNone); (u "nickname", VNone); (u "age", VNone);
         (u "location", VNone); (u "occupation", VNone);
         (u "interests", VList []); (u "goals", VList []);
         (u "preferences", VDict [])]);
     (u "facts", VList []);
     (u "conversations_summary", VList []);
     (u "important_dates", VDict []);
     (u "relationships", VDict []);
     (u "habits", VList []);
     (u "created_at", VStr created);
     (u "updated_at", VNone)]).

(** [MemorySystem._load_memory]; the warning is printed without the text
    of the exception. *)
Definition _load_memory : M value :=
  files ← gets fs;
  match files !! MEMORY_FILE with
  | Some _ =>
      try_except (read_json MEMORY_FILE)
        (fun e => Some (
           print_colored (u "⚠️  Ошибка загрузки памяти: ") YELLOW;;
           _empty_memory))
  | None => _empty_memory
  end.

(** [MemorySystem.__init__]; the session is the day of the clock. *)
Definition MemorySystem_init : M unit :=
  m ← _load_memory;
  modify (set_memory m);;
  today ← now;
  modify (set_current_session (take 10 today)).

(** [MemorySystem._save_memory] *)
Definition _save_memory : M unit :=
  t ← now;
  m ← gets memory;
  m' ← lift (setitem m (u "updated_at") (VStr t));
  modify (set_memory m');;
  write_json MEMORY_FILE m'.

(** [MemorySystem.add_fact] *)
Definition add_fact (fact category : pystr) : M value :=
  t ← now;
  session ← gets current_session;
  let fact_entry :=
    VDict [(u "fact", VStr fact); (u "category", VStr category);
           (u "added_at", VStr t); (u "session", VStr session)] in
  m ← gets memory;
  facts ← lift (getitem m (u "facts"));
  facts' ← lift (append facts fact_entry);
  m' ← lift (setitem m (u "facts") facts');
  modify (set_memory m');;
  _save_memory;;
  mret fact_entry.

(** [MemorySystem.update_profile] *)
Definition update_profile (field : pystr) (v : value) : M bool :=
  m ← gets memory;
  profile ← lift (getitem m (u "user_profile"));
  known ← lift (contains_key field profile);
  if known : bool then
    profile' ← lift (setitem profile field v);
    m' ← lift (setitem m (u "user_profile") profile');
    modify (set_memory m');;
    _save_memory;;
    mret true
  else mret false.

(** One scalar line of the context:
    [if profile[key]: context_parts.append(f"{label}{profile[key]}")] *)
Definition scalar_part (profile : value) (key : string) (label : string)
    (context_parts : list pystr) : result (list pystr) :=
  v ← getitem profile (u key);
  if truthy v then Ok (context_parts ++ [u label ++ format_value v])
  else Ok context_parts.

(** One list line: [', '.join(owner[key])] after the label *)
Definition list_part (owner : value) (key : string) (label : string)
    (context_parts : list pystr) : result (list pystr) :=
  v ← getitem owner (u key);
  if truthy v then
    joined ← join_value (u ", ") v;
    Ok (context_parts ++ [u label ++ joined])
  else Ok context_parts.

(** One line over the items of a dictionary; [show] formats an item. *)
Definition items_part (owner : value) (key : string) (label : string)
    (show : pystr -> value -> result pystr)
    (context_parts : list pystr) : result (list pystr) :=
  v ← getitem owner (u key);
  if truthy v then
    kvs ← items v;
    shown ← traverse (fun kv => show kv.1 kv.2) kvs;
    Ok (context_parts ++ [u label ++ join (u ", ") shown])
  else Ok context_parts.

(** The last ten facts *)
Definition facts_part (m : value) (context_parts : list pystr)
    : result (list pystr) :=
  v ← getitem m (u "facts");
  if truthy v then
    recent_facts ← slice_last 10 v;
    entries ← iterate recent_facts;
    facts_list ← traverse (fun f => getitem f (u "fact")) entries;
    Ok (context_parts ++
          [u "Что я знаю о пользователе:" ++ nl ++
           join nl (map (fun f => u "- " ++ format_value f) facts_list)])
  else Ok context_parts.

(** [MemorySystem.get_memory_context], as a function of the memory.
    [has_any_info] is set with every part that is added, so it is the
    same as the list of parts not being empty. *)
Definition render_context (m : value) : result pystr :=
  profile ← getitem m (u "user_profile");
  parts ← scalar_part profile "name" "Имя пользователя: " [];
  parts ← scalar_part profile "nickname" "Прозвище: " parts;
  parts ← scalar_part profile "age" "Возраст: " parts;
  parts ← scalar_part profile "location" "Местоположение: " parts;
  parts ← scalar_part profile "occupation" "Род занятий: " parts;
  parts ← list_part profile "interests" "Интересы: " parts;
  parts ← list_part profile "goals" "Цели: " parts;
  parts ← items_part profile "preferences" "Предпочтения: "
            (fun k v => Ok (k ++ u ": " ++ format_value v)) parts;
  parts ← items_part m "relationships" "Близкие люди: "
            (fun name info =>
               relation ← getitem info (u "relation");
               Ok (name ++ u " (" ++ format_value relation ++ u ")")) parts;
  parts ← items_part m "important_dates" "Важные даты: "
            (fun name info =>
               date ← getitem info (u "date");
               Ok (name ++ u ": " ++ format_value date)) parts;
  parts ← list_part m "habits" "Привычки: " parts;
  parts ← facts_part m parts;
  let has_any_info := match parts with [] => false | _ => true end in
  if negb has_any_info then Ok MEMORY_EMPTY
  else Ok (join (nl ++ nl) parts).

Definition get_memory_context : M pystr :=
  m ← gets memory;
  lift (render_context m).

(** [MemorySystem.export_memory] *)
Definition export_memory (filepath : string) : M unit :=
  m ← gets memory;
  write_json filepath m.

(** The key-value pairs that [dict.update(data)] takes from [data]: the
    items of a dictionary, or the elements of a sequence, each a pair.
    Keys that are not strings are outside the model. *)
Definition update_pairs (data : value) : result dict :=
  match data with
  | VDict e => Ok e
  | VList l =>
      traverse (fun x =>
        match x with
        | VList [VStr k; v] => Ok (k, v)
        | VStr [a; b] => Ok ([a], VStr [b])
        | VList [_; _] => Raise TypeError
        | VList _ | VStr _ | VDict _ => Raise ValueError
        | _ => Raise TypeError
        end) l
  | VStr [] => Ok []
  | VStr _ => Raise ValueError
  | _ => Raise TypeError
  end.

(** [MemorySystem.import_memory] *)
Definition import_memory (filepath : string) : M unit :=
  data ← read_json filepath;
  m ← gets memory;
  m' ← lift (match m with
             | VDict d => e ← update_pairs data; Ok (VDict (dict_update d e))
             | _ => Raise AttributeError
             end);
  modify (set_memory m');;
  _save_memory.

(** *** ConversationLogger *)

(** [ConversationLogger.log_exchange] *)
Definition log_exchange (user_message : pystr) (assistant_response : value)
    (extracted_facts : list pystr) : M unit :=
  file ← gets current_file;
  match file with
  | None => mret tt
  | Some path =>
      t ← now;
      append_json path
        (VDict [(u "timestamp", VStr t);
                (u "user", VStr user_message);
                (u "assistant", assistant_response);
                (u "extracted_facts", VList (map VStr extracted_facts))])
  end.

(** *** The chat client *)

(** The loop over [response.iter_lines()] of [chat_with_model]: a line
    that is not JSON is skipped; a chunk is printed and added to the
    response; a true ["done"] ends the loop; a transport error that cuts
    the body raises after the lines that arrived. *)
Fixpoint read_stream (lines : list pystr) (cut : option pystr)
    (full_response : pystr) : M pystr :=
  match lines with
  | [] =>
      match cut with
      | Some e => raise (RequestException e)
      | None => mret full_response
      end
  | line :: rest =>
      match line, json_loads line with
      | [], _ | _, None => read_stream rest cut full_response
      | _, Some data =>
          has_message ← lift (contains_key (u "message") data);
          has_content ←
            (if has_message : bool then
               msg ← lift (getitem data (u "message"));
               lift (contains_key (u "content") msg)
             else mret false);
          full_response ←
            (if has_content : bool then
               msg ← lift (getitem data (u "message"));
               chunk ← lift (getitem msg (u "content"));
               print (format_value chunk);;
               match chunk with
               | VStr c => mret (full_response ++ c)
               | _ => raise TypeError
               end
             else mret full_response);
          done ← lift (get_method data (u "done") (VBool false));
          if truthy done then mret full_response
          else read_stream rest cut full_response
      end
  end.

(** [chat_with_model].  A body that is not JSON makes [response.json()]
    raise the [JSONDecodeError] of [requests], which is a
    [RequestException]. *)
Definition chat_with_model (model : pystr) (messages : list value)
    (system_prompt : option pystr) (stream : bool) : M value :=
  let messages_with_system :=
    match system_prompt with
    | Some ((_ :: _) as p) => message "system" (VStr p) :: messages
    | _ => messages
    end in
  let payload :=
    {| req_model := model; req_messages := messages_with_system;
       req_stream := stream |} in
  try_except
    (response ← post payload;
     match response with
     | Unreachable e => raise (RequestException e)
     | Response lines cut =>
         if stream then
           full_response ← read_stream lines cut [];
           print nl;;
           mret (VStr full_response)
         else
           match cut with
           | Some e => raise (RequestException e)
           | None =>
               match json_loads (join nl lines) with
               | None => raise (RequestException (u "JSONDecodeError"))
               | Some data =>
                   msg ← lift (get_method data (u "message") (VDict []));
                   lift (get_method msg (u "content") (VStr []))
               end
           end
     end)
    (fun e =>
       match e with
       | RequestException d => Some (
           print_colored (u "Ошибка при запросе к модели: " ++ d) RED;;
           mret (VStr []))
       | _ => None
       end).

(** *** The generative extractors *)

(** The [try] block of [extract_facts_from_conversation]: [Ok None] when
    the block ends without returning. *)
Definition parse_facts_try (response : value) : result (option (list pystr)) :=
  match response with
  | VStr r =>
      let json_start := find (ord "[") r in
      let json_end := (rfind (ord "]") r + 1)%Z in
      if (0 <=? json_start)%Z && (json_start <? json_end)%Z then
        let json_str := slice r json_start json_end in
        facts ← or_raise JSONDecodeError (json_loads json_str);
        elements ← iterate facts;
        Ok (Some (nonempty_strings elements))
      else Ok None
  | _ => Raise AttributeError
  end.

(** The [try] block with its bare [except: pass] and the final
    [return []] *)
Definition parse_facts (response : value) : list pystr :=
  match parse_facts_try response with
  | Ok (Some facts) => facts
  | Ok None | Raise _ => []
  end.

(** The test that a short message looks like a name, in
    [extract_facts_from_conversation] *)
Definition looks_like_name (first_word : pystr) : bool :=
  match first_word with
  | [] => false
  | c :: _ =>
      str_isupper [c] && str_isalpha first_word && (2 <=? length first_word)%nat
  end.

(** [extract_facts_from_conversation] *)
Definition extract_facts_from_conversation (model user_message memory_context : pystr)
    : M (list pystr) :=
  let words := split (strip user_message) in
  let first_word := match words with w :: _ => w | [] => [] end in
  if (length words <=? 2)%nat && looks_like_name first_word
     && negb (bool_decide (str_lower first_word ∈ facts_stop_words))
  then mret [u "Пользователя зовут " ++ first_word]
  else
    let prompt := facts_prompt memory_context user_message in
    response ← chat_with_model model [message "user" (VStr prompt)] None false;
    mret (parse_facts response).

(** [if field == 'age' and isinstance(value, str): value = int(value)];
    [None] when [int] raises [ValueError] and the loop continues *)
Definition convert_age (field : pystr) (v : value) : option value :=
  match bool_decide (field = u "age"), v with
  | true, VStr s => VInt <$> int_of_str s
  | _, _ => Some v
  end.

(** One turn of the loop of [update_profile_from_facts] over
    [profile_updates.items()]; [current_profile] is the profile
    dictionary of the memory, which [update_profile] changes in place. *)
Definition merge_field (field : pystr) (v : value) (updated : bool) : M bool :=
  m ← gets memory;
  current_profile ← lift (getitem m (u "user_profile"));
  known ← (match v with
           | VNone => mret false
           | _ => lift (contains_key field current_profile)
           end);
if known : bool then
    match convert_age field v with
    | None => mret updated
    | Some v =>
        stored ← lift (getitem current_profile field);
        if (match stored with VNone => true | _ => false end)
           || negb (py_eq stored v)
        then update_profile field v;; mret true
        else mret updated
    end
  else mret updated.

Fixpoint merge_fields (profile_updates : dict) (updated : bool) : M bool :=
  match profile_updates with
  | [] => mret updated
  | (field, v) :: rest =>
      updated ← merge_field field v updated;
      merge_fields rest updated
  end.

(** The [try] block of [update_profile_from_facts]: [None] when the block
    ends without returning. *)
Definition apply_profile_reply (response : value) : M (option bool) :=
  match response with
  | VStr r =>
      let json_start := find (ord "{") r in
      let json_end := (rfind (ord "}") r + 1)%Z in
      if (0 <=? json_start)%Z && (json_start <? json_end)%Z then
        let json_str := slice r json_start json_end in
        match json_loads json_str with
        | None => raise JSONDecodeError
        | Some profile_updates =>
            kvs ← lift (items profile_updates);
            updated ← merge_fields kvs false;
            mret (Some updated)
        end
      else mret None
  | _ => raise AttributeError
  end.

(** [current_profile.get(key) or 'не указано'], formatted *)
Definition shown (current_profile : value) (key : string) : result pystr :=
  v ← get_method current_profile (u key) VNone;
  Ok (if truthy v then format_value v else u "не указано").

(** [update_profile_from_facts] *)
Definition update_profile_from_facts (model : pystr) (facts : list pystr) : M bool :=
  match facts with
  | [] => mret false
  | _ =>
      let facts_text := join nl (map (fun fact => u "- " ++ fact) facts) in
      m ← gets memory;
      current_profile ← lift (getitem m (u "user_profile"));
      prompt ← lift (
        shown_name ← shown current_profile "name";
        shown_nickname ← shown current_profile "nickname";
        shown_age ← shown current_profile "age";
        shown_location ← shown current_profile "location";
        shown_occupation ← shown current_profile "occupation";
        Ok (profile_prompt facts_text shown_name shown_nickname shown_age
              shown_location shown_occupation));
      response ← chat_with_model model [message "user" (VStr prompt)] None false;
      outcome ← try_except (apply_profile_reply response) (fun _ => Some (mret None));
      mret (default false outcome)
  end.

(** *** PersonalAgent *)

(** [PersonalAgent.get_system_prompt] *)
Definition get_system_prompt : M pystr :=
  memory_context ← get_memory_context;
  let has_memory := negb (contains (u "ПАМЯТЬ ПУСТАЯ") memory_context) in
  mret (system_prompt_text memory_context has_memory).

(** The condition of [_extract_name_directly] on the first word of a
    short message *)
Definition may_be_name (first_word : pystr) : bool :=
  match first_word with
  | [] => false
  | c :: _ =>
      str_isupper [c] && str_isalpha first_word
      && (2 <=? length first_word)%nat
      && negb (bool_decide (str_lower first_word ∈ stop_words))
  end.

(** The first block of [_extract_name_directly]: a message of one or two
    words on a profile without name and nickname.  It answers whether the
    method returns [True] from this block. *)
Definition name_heuristic (user_message : pystr) : M bool :=
  let message_original := strip user_message in
  m ← gets memory;
  profile ← lift (getitem m (u "user_profile"));
  let words := split message_original in
  applies ←
    (if (length words <=? 2)%nat then
       name ← lift (get_method profile (u "name") VNone);
       if truthy name then mret false
       else
         nickname ← lift (get_method profile (u "nickname") VNone);
         mret (negb (truthy nickname))
     else mret false);
  if applies : bool then
    match words with
    | [] => raise IndexError
    | first_word :: _ =>
        if may_be_name first_word then
          update_profile (u "name") (VStr first_word);;
          mret true
        else mret false
    end
  else mret false.

(** The loop over a list of patterns: the first pattern whose match is
    longer than [min_len] characters and is not a stop word gives the
    result, capitalized. *)
Fixpoint first_accepted (min_len : nat) (patterns : list regex)
    (message_lower : pystr) : option pystr :=
  match patterns with
  | [] => None
  | pattern :: rest =>
      match re_search pattern message_lower with
      | Some group1 =>
          let potential := strip group1 in
          if (min_len <? length potential)%nat
             && negb (bool_decide (str_lower potential ∈ stop_words))
          then Some (str_capitalize potential)
          else first_accepted min_len rest message_lower
      | None => first_accepted min_len rest message_lower
      end
  end.

(** [len(potential_name) > 2] *)
Definition find_name (message_lower : pystr) : option pystr :=
  first_accepted 2 name_patterns message_lower.

(** [len(potential_nickname) > 1] *)
Definition find_nickname (message_lower : pystr) : option pystr :=
  first_accepted 1 nickname_patterns message_lower.

(** [if found and (not profile.get(field) or profile.get(field) != found):
       self.memory.update_profile(field, found)], answering whether the
    profile was written *)
Definition update_if_new (field : string) (found : option pystr) : M bool :=
  match found with
  | Some ((_ :: _) as text) =>
      m ← gets memory;
      profile ← lift (getitem m (u "user_profile"));
      stored ← lift (get_method profile (u field) VNone);
      if negb (truthy stored) || negb (py_eq stored (VStr text)) then
        update_profile (u field) (VStr text);;
        mret true
      else mret false
  | _ => mret false
  end.

(** The rest of [_extract_name_directly]: the name and nickname
    patterns *)
Definition pattern_strategy (user_message : pystr) : M bool :=
  let message_lower := strip (str_lower user_message) in
  let name := find_name message_lower in
  let nickname := find_nickname message_lower in
  name_written ← update_if_new "name" name;
  nickname_written ← update_if_new "nickname" nickname;
  mret (name_written || nickname_written).

(** [PersonalAgent._extract_name_directly] *)
Definition _extract_name_directly (user_message : pystr) : M bool :=
  fired ← name_heuristic user_message;
  if fired : bool then mret true
  else pattern_strategy user_message.

(** ['зовут' in fact.lower() or 'имя' in fact.lower()] *)
Definition mentions_name (fact : pystr) : bool :=
  contains (u "зовут") (str_lower fact) || contains (u "имя") (str_lower fact).

(** Step 3 of [process_message]: the fact added for the log when the
    fast path reports an extraction *)
Definition with_name_fact (name_extracted : bool) (new_facts : list pystr)
    : M (list pystr) :=
  if name_extracted then
    m ← gets memory;
    profile ← lift (getitem m (u "user_profile"));
    name ← lift (get_method profile (u "name") VNone);
    if truthy name then
      let has_name_fact := existsb mentions_name new_facts in
      if negb has_name_fact then
        name ← lift (getitem profile (u "name"));
        mret (new_facts ++ [u "Пользователя зовут " ++ format_value name])
      else mret new_facts
    else mret new_facts
  else mret new_facts.

(** [for fact in new_facts: self.memory.add_fact(fact)] *)
Fixpoint add_facts (facts : list pystr) : M unit :=
  match facts with
  | [] => mret tt
  | fact :: rest => add_fact fact (u "general");; add_facts rest
  end.

(** Steps 1 to 5 of [process_message] and the system prompt: everything
    that comes before the request for the answer.  It gives the facts
    of the turn and the system prompt. *)
Definition prepare_turn (user_message : pystr) : M (list pystr * pystr) :=
  name_extracted ← _extract_name_directly user_message;
  memory_context ← get_memory_context;
  model ← gets model;
  new_facts ← extract_facts_from_conversation model user_message memory_context;
  new_facts ← with_name_fact name_extracted new_facts;
  add_facts new_facts;;
  match new_facts with
  | [] => mret false
  | _ => update_profile_from_facts model new_facts
  end;;
  modify (fun st => set_conversation_history
    (conversation_history st ++ [message "user" (VStr user_message)]) st);;
  system_prompt ← get_system_prompt;
  mret (new_facts, system_prompt).

(** The request for the answer and steps 7 and 8 of [process_message] *)
Definition answer_turn (user_message : pystr) (new_facts : list pystr)
    (system_prompt : pystr) : M value :=
  model ← gets model;
  history ← gets conversation_history;
  response ← chat_with_model model history (Some system_prompt) true;
  log_exchange user_message response new_facts;;
  modify (fun st => set_conversation_history
    (conversation_history st ++ [message "assistant" response]) st);;
  mret response.

(** [PersonalAgent.process_message] *)
Definition process_message (user_message : pystr) : M value :=
  prepared ← prepare_turn user_message;
  answer_turn user_message prepared.1 prepared.2.

(** *** The other methods of MemorySystem *)





(** [MemorySystem.add_preference] *)
Definition add_preference (key value : pystr) : M unit :=
  m ← gets memory;
  profile ← lift (getitem m (u "user_profile"));
  preferences ← lift (getitem profile (u "preferences"));
  preferences' ← lift (setitem preferences key (VStr value));
  profile' ← lift (setitem profile (u "preferences") preferences');
  m' ← lift (setitem m (u "user_profile") profile');
  modify (set_memory m');;
  _save_memory.

(** [MemorySystem.add_relationship] *)
Definition add_relationship (name relation details : pystr) : M unit :=
  t ← now;
  m ← gets memory;
  relationships ← lift (getitem m (u "relationships"));
  relationships' ← lift (setitem relationships name
    (VDict [(u "relation", VStr relation); (u "details", VStr details);
            (u "added_at", VStr t)]));
  m' ← lift (setitem m (u "relationships") relationships');
  modify (set_memory m');;
  _save_memory.

(** [MemorySystem.add_important_date] *)
Definition add_important_date (name date description : pystr) : M unit :=
  t ← now;
  m ← gets memory;
  dates ← lift (getitem m (u "important_dates"));
  dates' ← lift (setitem dates name
    (VDict [(u "date", VStr date); (u "description", VStr description);
            (u "added_at", VStr t)]));
  m' ← lift (setitem m (u "important_dates") dates');
  modify (set_memory m');;
  _save_memory.

(** [fact['fact'].lower()]: only a string has [lower]. *)
Definition fact_text_lower (fact : value) : result pystr :=
  text ← getitem fact (u "fact");
  match text with
  | VStr s => Ok (str_lower s)
  | _ => Raise AttributeError
  end.

(** The loop of [search_facts] *)
Fixpoint matching_facts (query_lower : pystr) (facts : list value)
    : result (list value) :=
  match facts with
  | [] => Ok []
  | fact :: rest =>
      text ← fact_text_lower fact;
      results ← matching_facts query_lower rest;
      Ok (if contains query_lower text then fact :: results else results)
  end.

(** [MemorySystem.search_facts], as a function of the memory *)
Definition search_facts (m : value) (query : pystr) : result (list value) :=
  let query_lower := str_lower query in
  facts ← getitem m (u "facts");
  entries ← iterate facts;
  matching_facts query_lower entries.

(** *** The other methods of PersonalAgent *)

Definition GREEN : pystr := 27 :: u "[92m".

(** [PersonalAgent.clear_history] *)
Definition clear_history : M unit :=
  modify (set_conversation_history []);;
  print_colored (u "💬 История текущего разговора очищена") GREEN.

(** [PersonalAgent.add_fact_manual] *)
Definition add_fact_manual (fact category : pystr) : M unit :=
  add_fact fact category;;
  print_colored (u "✅ Факт сохранён: " ++ fact) GREEN.




(** *** The save as the interpreter performs it *)

(** The methods above take the write of the memory file for granted, which
    it is while every string of the memory can be encoded.  The methods
    below are the same methods with the write that can fail: the memory is
    changed first, so a failed save leaves the change in memory and a file
    that holds no document. *)

(** [MemorySystem._save_memory] *)
Definition _save_memory_strict : M unit :=
  t ← now;
  m ← gets memory;
  m' ← lift (setitem m (u "updated_at") (VStr t));
  modify (set_memory m');;
  dump_json MEMORY_FILE m'.

(** [MemorySystem.add_fact] *)
Definition add_fact_strict (fact category : pystr) : M value :=
  t ← now;
  session ← gets current_session;
  let fact_entry :=
    VDict [(u "fact", VStr fact); (u "category", VStr category);
           (u "added_at", VStr t); (u "session", VStr session)] in
  m ← gets memory;
  facts ← lift (getitem m (u "facts"));
  facts' ← lift (append facts fact_entry);
  m' ← lift (setitem m (u "facts") facts');
  modify (set_memory m');;
  _save_memory_strict;;
  mret fact_entry.

(** [MemorySystem.update_profile] *)
Definition update_profile_strict (field : pystr) (v : value) : M bool :=
  m ← gets memory;
  profile ← lift (getitem m (u "user_profile"));
  known ← lift (contains_key field profile);
  if known : bool then
    profile' ← lift (setitem profile field v);
    m' ← lift (setitem m (u "user_profile") profile');
    modify (set_memory m');;
    _save_memory_strict;;
    mret true
  else mret false.

(** [MemorySystem.export_memory] *)
Definition export_memory_strict (filepath : string) : M unit :=
  m ← gets memory;
  dump_json filepath m.

(** [MemorySystem.import_memory] *)
Definition import_memory_strict (filepath : string) : M unit :=
  data ← read_json filepath;
  m ← gets memory;
  m' ← lift (match m with
             | VDict d => e ← update_pairs data; Ok (VDict (dict_update d e))
             | _ => Raise AttributeError
             end);
  modify (set_memory m');;
  _save_memory_strict.




End Program.

(** ** Notions used in the statements *)

(** The value of a profile field in a state, when the memory has a profile *)
Definition profile_field (st : State) (key : pystr) : option value :=
  match memory st with
  | VDict m =>
      match dict_get (u "user_profile") m with
      | Some (VDict profile) => dict_get key profile
      | _ => None
      end
  | _ => None
  end.

(** A field of a dictionary counts as set when it holds a value that Python
    treats as true: not [None], not an empty string, list or dictionary, not
    zero.  This is the test [if d[key]] and [if d.get(key)] of the program. *)
Definition field_set (d : dict) (key : string) : bool :=
  truthy (default VNone (dict_get (u key) d)).

(** The state after [self.memory = m] and [_save_memory()] *)
Definition saved (m : dict) (st : State) : State :=
  let m' := dict_set (u "updated_at") (VStr (clock st (ticks st))) m in
  set_fs (<[MEMORY_FILE := [VDict m']]> (fs st))
    (set_memory (VDict m') (set_ticks (S (ticks st)) st)).

(** The state after [update_profile(field, v)] on a memory [m] with profile
    [profile] *)
Definition profile_written (m profile : dict) (field : pystr) (v : value)
    (st : State) : State :=
  saved (dict_set (u "user_profile") (VDict (dict_set field v profile)) m) st.

Section PatternStatements.
Context `{Python}.

(** A match is accepted when, stripped, it has at least [least] characters
    and its lower-case form is not a stop word. *)
Definition accepted (least : nat) (group1 : pystr) : Prop :=
  (least <= length (strip group1))%nat
  ∧ (str_lower (strip group1) ∉ stop_words).

(** [result] comes from the first pattern of the list, in order, whose
    match on the message is accepted: the patterns before it do not match
    or their match is rejected. *)
Definition first_accepted_match (least : nat) (patterns : list regex)
    (message_lower result : pystr) : Prop :=
  ∃ before pattern after group1,
    patterns = before ++ pattern :: after
    ∧ re_search pattern message_lower = Some group1
    ∧ accepted least group1
    ∧ result = str_capitalize (strip group1)
    ∧ ∀ earlier group1',
        earlier ∈ before ->
        re_search earlier message_lower = Some group1' ->
        ¬ accepted least group1'.

End PatternStatements.

(** A Python dictionary has no repeated key; [well_formed] says so of every
    dictionary inside a value, and that no number inside it is a NaN, which
    is equal to nothing, itself included. *)
Fixpoint well_formed (v : value) : bool :=
  match v with
  | VList l =>
      (fix all (l : list value) : bool :=
         match l with
         | [] => true
         | x :: r => well_formed x && all r
         end) l
  | VDict d =>
      bool_decide (NoDup d.*1) &&
      (fix all (d : list (pystr * value)) : bool :=
         match d with
         | [] => true
         | (_, x) :: r => well_formed x && all r
         end) d
  | VFloat x => PrimFloat.eqb x x
  | _ => true
  end.

(** Induction on values, through lists and dictionaries *)
Section ValueInduction.
Variable P : value -> Prop.
Hypothesis HNone : P VNone.
Hypothesis HBool : ∀ b, P (VBool b).
Hypothesis HInt : ∀ z, P (VInt z).
Hypothesis HStr : ∀ s, P (VStr s).
Hypothesis HList : ∀ l, Forall P l -> P (VList l).
Hypothesis HDict : ∀ d, Forall (fun kv => P kv.2) d -> P (VDict d).
Hypothesis HFloat : ∀ x, P (VFloat x).

Fixpoint value_ind (v : value) : P v :=
  match v with
  | VNone => HNone
  | VBool b => HBool b
  | VInt z => HInt z
  | VStr s => HStr s
  | VList l =>
      HList l
        ((fix all (l : list value) : Forall P l :=
            match l with
            | [] => Forall_nil_2 P
            | x :: r => Forall_cons_2 P x r (value_ind x) (all r)
            end) l)
  | VDict d =>
      HDict d
        ((fix all (d : list (pystr * value)) : Forall (fun kv => P kv.2) d :=
            match d with
            | [] => Forall_nil_2 _
            | kv :: r => Forall_cons_2 _ kv r (value_ind kv.2) (all r)
            end) d)
  | VFloat x => HFloat x
  end.
End ValueInduction.

Section MergeStatements.
Context `{Python}.

(** What one turn of the merge loop writes into a known field that holds
    [stored]: nothing for a null candidate, for an age that is not a
    number, and for a candidate equal to the stored value. *)
Definition written (stored : value) (field : pystr) (v : value) : option value :=
  match v with
  | VNone => None
  | _ =>
      match convert_age field v with
      | Some candidate =>
          if (match stored with VNone => true | _ => false end)
             || negb (py_eq stored candidate)
          then Some candidate
          else None
      | None => None
      end
  end.


(** The entry writes into the profile. *)
Definition writes (profile : dict) (kv : pystr * value) : bool :=
  match dict_get kv.1 profile with
  | Some stored => bool_decide (is_Some (written stored kv.1 kv.2))
  | None => false
  end.

End MergeStatements.

(** ** Notions for the context renderer *)

(** The keys of the profile and of the memory that the renderer reads *)
Definition profile_sections : list string :=
  ["name"; "nickname"; "age"; "location"; "occupation"; "interests";
   "goals"; "preferences"]%string.

Definition memory_sections : list string :=
  ["relationships"; "important_dates"; "habits"; "facts"]%string.

(** The memory is a dictionary with a profile, and both have the keys that
    the renderer reads. *)
Definition has_sections (m profile : dict) : Prop :=
  dict_get (u "user_profile") m = Some (VDict profile)
  ∧ (∀ key, key ∈ profile_sections -> is_Some (dict_get (u key) profile))
  ∧ (∀ key, key ∈ memory_sections -> is_Some (dict_get (u key) m)).

(** No section is set: every profile field and every collection is null,
    empty or zero. *)
Definition nothing_known (m profile : dict) : Prop :=
  (∀ key, key ∈ profile_sections -> field_set profile key = false)
  ∧ (∀ key, key ∈ memory_sections -> field_set m key = false).

(** The labels with which the parts of the context begin *)
Definition part_labels : list string :=
  ["Имя пользователя: "; "Прозвище: "; "Возраст: "; "Местоположение: ";
   "Род занятий: "; "Интересы: "; "Цели: "; "Предпочтения: ";
   "Близкие люди: "; "Важные даты: "; "Привычки: ";
   "Что я знаю о пользователе:"]%string.

Definition labelled (part : pystr) : bool :=
  existsb (fun label => startswith (u label) part) part_labels.

(** What a step of the renderer does to the parts collected so far, for a
    section that holds [v] and whose part begins with [label]: it raises
    only when the section is set; otherwise the parts stay labelled, and
    none is there afterwards exactly when none was there before and the
    section is not set. *)
Definition step_spec (label : string) (v : value)
    (step : list pystr -> result (list pystr)) : Prop :=
  ∀ parts,
    Forall (fun p => labelled p = true) parts ->
    match step parts with
    | Raise _ => truthy v = true
    | Ok parts' =>
        Forall (fun p => labelled p = true) parts'
        ∧ (parts' = [] ↔ parts = [] ∧ truthy v = false)
    end.


(** ** Scenarios *)

(** The snapshot is exported to [path]; the memory file is removed; a new
    [MemorySystem] is built, which finds no file and starts empty; the
    exported file is imported into it. *)
Definition export_then_import (path : string) : M unit :=
  export_memory path;;
  modify (fun st => set_fs (delete MEMORY_FILE (fs st)) st);;
  MemorySystem_init;;
  import_memory path.

(** [export_then_import] with the writes that can fail *)
Definition export_then_import_strict (path : string) : M unit :=
  export_memory_strict path;;
  modify (fun st => set_fs (delete MEMORY_FILE (fs st)) st);;
  MemorySystem_init;;
  import_memory_strict path.


(** The record that [log_exchange] writes *)
Definition exchange_record (timestamp user_message : pystr)
    (assistant_response : value) (extracted_facts : list pystr) : value :=
  VDict [(u "timestamp", VStr timestamp);
         (u "user", VStr user_message);
         (u "assistant", assistant_response);
         (u "extracted_facts", VList (map VStr extracted_facts))].

(** ** Notions for the further properties *)

(** The value under a top-level key of the memory of a state *)
Definition memory_field (st : State) (key : pystr) : option value :=
  match memory st with
  | VDict m => dict_get key m
  | _ => None
  end.

(** The memory file holds the memory of the state. *)
Definition synced (st : State) : Prop :=
  fs st !! MEMORY_FILE = Some [memory st].

(** The memory file holds no document: a write to it has failed. *)
Definition damaged (st : State) : Prop :=
  fs st !! MEMORY_FILE = Some [].

(** Every reading of the clock can be encoded, as the text of
    [datetime.isoformat] can. *)
Definition clock_encodable (st : State) : Prop :=
  ∀ n, str_encodable (clock st n) = true.

(** A fact entry with a text, as [add_fact] builds it *)
Definition has_text (entry : value) (text : pystr) : Prop :=
  getitem entry (u "fact") = Ok (VStr text).

(** ** What a method leaves alone *)

(** Every run of [c], whatever its outcome, ends in a state that is
    related to the state it started in. *)
Definition respects {A} (R : relation State) (c : M A) : Prop :=
  ∀ st, R st (c st).2.

(** The sections of the memory that a turn writes *)
Definition turn_sections : list pystr :=
  [u "user_profile"; u "facts"; u "updated_at"].

(** A state that a session can reach from another by turns: the
    configuration is the same, the clock has not gone back, and what is
    recorded has only grown. *)
Record extends (st st' : State) : Prop := {
  same_model : model st' = model st;
  same_session : current_session st' = current_session st;
  same_file : current_file st' = current_file st;
  same_server : server st' = server st;
  same_clock : clock st' = clock st;
  later_ticks : (ticks st <= ticks st')%nat;
  more_sent : sent st `suffix_of` sent st';
  more_console : console st `prefix_of` console st';
  more_history : conversation_history st `prefix_of` conversation_history st';
  more_facts : ∀ facts,
    memory_field st (u "facts") = Some (VList facts) ->
    ∃ more, memory_field st' (u "facts") = Some (VList (facts ++ more));
  same_profile_keys : ∀ profile,
    memory_field st (u "user_profile") = Some (VDict profile) ->
    ∃ profile', memory_field st' (u "user_profile") = Some (VDict profile')
                ∧ profile'.*1 = profile.*1;
  other_sections : ∀ key,
    key ∉ turn_sections -> memory_field st' key = memory_field st key;
  other_files : ∀ path,
    path ≠ MEMORY_FILE -> current_file st ≠ Some path ->
    fs st' !! path = fs st !! path;
  more_log : ∀ path,
    current_file st = Some path -> path ≠ MEMORY_FILE ->
    default [] (fs st !! path) `prefix_of` default [] (fs st' !! path);
}.

(** Neither the history nor a file other than the memory file has
    changed. *)
Definition quiet (st st' : State) : Prop :=
  conversation_history st' = conversation_history st
  ∧ current_file st' = current_file st
  ∧ ∀ path, path ≠ MEMORY_FILE -> fs st' !! path = fs st !! path.

(** [self.conversation_history.append({"role": role, "content": content})] *)
Definition with_message (role : string) (content : value) (st : State) : State :=
  set_conversation_history (conversation_history st ++ [message role content]) st.

Section TurnStatements.
Context `{Python}.

(** Steps 1 to 5 of [process_message], up to the history *)
Definition steps_1_to_5 (user_message : pystr) : M (list pystr) :=
  name_extracted ← _extract_name_directly user_message;
  memory_context ← get_memory_context;
  model ← gets model;
  new_facts ← extract_facts_from_conversation model user_message memory_context;
  new_facts ← with_name_fact name_extracted new_facts;
  add_facts new_facts;;
  match new_facts with
  | [] => mret false
  | _ => update_profile_from_facts model new_facts
  end;;
  mret new_facts.



(** The text of the fact, in lower case, contains the query in lower
    case. *)
Definition fact_matches (query : pystr) (fact : value) : bool :=
  match getitem fact (u "fact") with
  | Ok (VStr text) => contains (str_lower query) (str_lower text)
  | _ => false
  end.


End TurnStatements.

(** ** States and servers for the examples *)

(** JSON text written with single quotes in place of double quotes *)
Definition jq (s : string) : pystr :=
  map (fun c => if c =? 39 then 34 else c) (u s).

(** A clock that shows the seconds of one minute *)
Definition example_clock (n : nat) : pystr :=
  u "2025-01-15T10:00:" ++ (if (n <? 10)%nat then u "0" else []) ++ str_of_N (N.of_nat n).

(** A server that refuses every connection *)
Definition unreachable_server (requests : list request) : http_reply :=
  Unreachable (u "Connection refused").

(** A server whose model finds no fact and no profile field, and answers
    a greeting in two chunks *)
Definition quiet_server (requests : list request) : http_reply :=
  match requests with
  | r :: _ =>
      if req_stream r then
        Response
          [jq "{'message': {'role': 'assistant', 'content': 'Привет'}, 'done': false}";
           [];
           jq "{'message': {'role': 'assistant', 'content': '!'}, 'done': true}"]
          None
      else
        Response [jq "{'message': {'role': 'assistant', 'content': '[]'}}"] None
  | [] => Unreachable (u "no request")
  end.

(** The schema of [_empty_memory], with a given profile *)
Definition example_memory_dict (profile : dict) : dict :=
  [(u "user_profile", VDict profile);
   (u "facts", VList []);
   (u "conversations_summary", VList []);
   (u "important_dates", VDict []);
   (u "relationships", VDict []);
   (u "habits", VList []);
   (u "created_at", VStr (example_clock 0));
   (u "updated_at", VNone)].

Definition example_memory (profile : dict) : value :=
  VDict (example_memory_dict profile).

Definition example_profile (name age : value) : dict :=
  [(u "name", name); (u "nickname", VNone); (u "age", age);
   (u "location", VNone); (u "occupation", VNone);
   (u "interests", VList []); (u "goals", VList []);
   (u "preferences", VDict [])].

(** The memory that [_empty_memory] builds at the first reading of
    [example_clock] *)
Definition example_empty_memory : value :=
  example_memory (example_profile VNone VNone).

(** A session on a given memory with a given server: no file yet, a log
    started *)
Definition session (m : value) (srv : list request -> http_reply) : State :=
  {| memory := m;
     current_session := u "2025-01-15";
     current_file := Some "~/.personal_agent/conversations/conversation_20250115_100000.jsonl"%string;
     model := u "qwen2.5:7b";
     conversation_history := [];
     fs := ∅;
     clock := example_clock;
     ticks := 2;
     server := srv;
     sent := [];
     console := [] |}.

(** A first session: an empty memory and a server that cannot be reached *)
Definition first_session : State := session example_empty_memory unreachable_server.

(** A session of a user whose name is known, with a working server *)
Definition petya_session : State :=
  session (example_memory (example_profile (VStr (u "Петя")) VNone)) quiet_server.

(** A session on the profile [{name: "Ann"}] *)
Definition ann_session : State :=
  session (example_memory (example_profile (VStr (u "Ann")) VNone)) unreachable_server.

(** A reply to the fact extraction, with prose around the list *)
Definition example_facts_reply : pystr :=
  u "Вот факты: [" ++ q ++ u "любит джаз" ++ q ++ u ", " ++ q ++ q
    ++ u ", 5, " ++ q ++ u "живёт в Москве" ++ q ++ u "] Готово.".

(** The path of the log of the example sessions *)
Definition example_log : string :=
  "~/.personal_agent/conversations/conversation_20250115_100000.jsonl".

(** A session whose memory file is empty *)
Definition damaged_session : State :=
  set_fs {[ MEMORY_FILE := [] ]} first_session.

(** Two facts, as [add_fact] stores them *)
Definition example_fact (text : string) (n : nat) : value :=
  VDict [(u "fact", VStr (u text)); (u "category", VStr (u "general"));
         (u "added_at", VStr (example_clock n));
         (u "session", VStr (u "2025-01-15"))].

Definition example_facts : list value :=
  [example_fact "Любит джаз" 0; example_fact "Живёт в Москве" 1].

Definition facts_memory : dict :=
  dict_set (u "facts") (VList example_facts)
    (example_memory_dict (example_profile VNone VNone)).



(** * Properties *)

Local Open Scope nat_scope.

(** ** Strings *)

Lemma split_acc_lstrip (s : pystr) : split_acc [] (lstrip s) = split_acc [] s.
Proof.
  induction s as [|c r IH]; [reflexivity|].
  simpl. destruct (isspace c) eqn:Hc; simpl; by rewrite ?Hc.
Qed.

Lemma split_acc_snoc_space (w s : pystr) (c : codepoint) :
  isspace c = true -> split_acc w (s ++ [c]) = split_acc w s.
Proof.
  intros Hc. revert w. induction s as [|a r IH]; intros w; simpl.
  - rewrite Hc. by destruct w.
  - destruct (isspace a); [destruct w|]; by rewrite IH.
Qed.

Lemma rstrip_snoc (s : pystr) (c : codepoint) :
  rstrip (s ++ [c]) = if isspace c then rstrip s else s ++ [c].
Proof.
  unfold rstrip. rewrite rev_app_distr. simpl.
  destruct (isspace c); [reflexivity|].
  simpl. by rewrite rev_involutive.
Qed.

Lemma split_acc_rstrip (w s : pystr) : split_acc w (rstrip s) = split_acc w s.
Proof.
  induction s as [|c s IH] using rev_ind; [reflexivity|].
  rewrite rstrip_snoc. destruct (isspace c) eqn:Hc; [|reflexivity].
  by rewrite split_acc_snoc_space.
Qed.

(** The words of a message are those of the stripped message. *)
Lemma split_strip (s : pystr) : split (strip s) = split s.
Proof.
  unfold split, strip. by rewrite split_acc_rstrip, split_acc_lstrip.
Qed.

(** ** Dictionaries *)

Lemma dict_get_set_eq (k : pystr) (v : value) (d : dict) :
  dict_get k (dict_set k v d) = Some v.
Proof.
  induction d as [|[k' v'] d IH]; simpl.
  - by rewrite bool_decide_eq_true_2.
  - destruct (decide (k' = k)) as [->|Hne].
    + rewrite bool_decide_eq_true_2 by done. simpl.
      by rewrite bool_decide_eq_true_2.
    + rewrite bool_decide_eq_false_2 by done. simpl.
      by rewrite bool_decide_eq_false_2.
Qed.

Lemma dict_get_set_ne (k k' : pystr) (v : value) (d : dict) :
  k ≠ k' -> dict_get k' (dict_set k v d) = dict_get k' d.
Proof.
  intros Hne. induction d as [|[k0 v0] d IH]; simpl.
  - by rewrite bool_decide_eq_false_2.
  - destruct (decide (k0 = k)) as [->|Hne0].
    + rewrite bool_decide_eq_true_2 by done. simpl.
      by rewrite !bool_decide_eq_false_2.
    + rewrite bool_decide_eq_false_2 by done. simpl.
      by rewrite IH.
Qed.

Lemma dict_get_set (k k' : pystr) (v : value) (d : dict) :
  dict_get k' (dict_set k v d) = if decide (k = k') then Some v else dict_get k' d.
Proof.
  destruct (decide (k = k')) as [->|Hne];
    [apply dict_get_set_eq | by apply dict_get_set_ne].
Qed.

Section Extraction.
Context `{Python}.

(** ** The short-circuit of the fact extractor *)

(** C10.  A message of at most two words whose first word starts with an
    upper-case letter, consists of letters, has at least two characters and
    is not one of the extractor's stop words gives the single fact
    "Пользователя зовут <first word>".  The state does not change, so no
    request is sent; neither the memory nor the context passed in matters. *)
Theorem short_name_message_needs_no_model
    (model user_message memory_context : pystr) (st : State)
    (c : codepoint) (letters_after : pystr) (other_words : list pystr) :
  split user_message = (c :: letters_after) :: other_words ->
  length (split user_message) <= 2 ->
  str_isupper [c] = true ->
  str_isalpha (c :: letters_after) = true ->
  2 <= length (c :: letters_after) ->
  str_lower (c :: letters_after) ∉ facts_stop_words ->
  extract_facts_from_conversation model user_message memory_context st
  = (Ok [u "Пользователя зовут " ++ c :: letters_after], st).
Proof.
  intros Hwords Hcount Hupper Halpha Hlen Hstop.
  unfold extract_facts_from_conversation.
  rewrite split_strip, Hwords in *.
  replace (length _ <=? 2)%nat with true
    by (symmetry; apply Nat.leb_le; exact Hcount).
  unfold looks_like_name. rewrite Hupper, Halpha.
  replace (2 <=? length (c :: letters_after))%nat with true
    by (symmetry; apply Nat.leb_le; exact Hlen).
  by rewrite bool_decide_eq_false_2.
Qed.

End Extraction.

Lemma short_name_message_needs_no_model_witness :
  extract_facts_from_conversation (H := latin_cyrillic)
    (u "qwen2.5:7b") (u "Вася") MEMORY_EMPTY first_session
  = (Ok [u "Пользователя зовут Вася"], first_session).
Proof.
  apply (short_name_message_needs_no_model (H := latin_cyrillic)
           _ _ _ _ 1042%N (u "ася") []);
    [vm_compute; reflexivity | vm_compute; lia | vm_compute; reflexivity
    | vm_compute; reflexivity | vm_compute; lia
    | apply (bool_decide_eq_false_1 _); vm_compute; reflexivity].
Defined.

(** ** Searching a string *)

Lemma find_from_spec (c : codepoint) (s : pystr) (i : Z) :
  ((c ∉ s) ∧ find_from c s i = (-1)%Z) ∨
  (∃ before after, s = before ++ c :: after ∧ (c ∉ before)
                   ∧ find_from c s i = (i + Z.of_nat (length before))%Z).
Proof.
  revert i. induction s as [|a r IH]; intros i; simpl.
  - left. split; [apply not_elem_of_nil | reflexivity].
  - destruct (N.eqb_spec a c) as [->|Hne].
    + right. exists [], r. repeat split; [apply not_elem_of_nil | simpl; lia].
    + destruct (IH (i + 1)%Z) as [[Hnot ->]|(b & a' & -> & Hb & ->)].
      * left. split; [|reflexivity].
        intros [->|?]%elem_of_cons; [done | by apply Hnot].
      * right. exists (a :: b), a'. repeat split.
        -- intros [->|?]%elem_of_cons; [done | by apply Hb].
        -- simpl. lia.
Qed.

Lemma rfind_from_spec (c : codepoint) (s : pystr) (i last : Z) :
  ((c ∉ s) ∧ rfind_from c s i last = last) ∨
  (∃ before after, s = before ++ c :: after ∧ (c ∉ after)
                   ∧ rfind_from c s i last = (i + Z.of_nat (length before))%Z).
Proof.
  revert i last. induction s as [|a r IH]; intros i last; simpl.
  - left. split; [apply not_elem_of_nil | reflexivity].
  - destruct (IH (i + 1)%Z (if (a =? c)%N then i else last))
      as [[Hnot ->]|(b & a' & -> & Ha & ->)].
    + destruct (N.eqb_spec a c) as [->|Hne].
      * right. exists [], r. repeat split; [done | simpl; lia].
      * left. split; [|reflexivity].
        intros [->|?]%elem_of_cons; [done | by apply Hnot].
    + right. exists (a :: b), a'. repeat split; [done | simpl; lia].
Qed.

(** When [s.find(o)] is not negative and lies before [s.rfind(c) + 1], the
    slice between them starts at the first [o] and ends at the last [c]. *)
Lemma slice_first_to_last (o c : codepoint) (s : pystr) :
  o ≠ c ->
  (0 <= find o s)%Z -> (find o s < rfind c s + 1)%Z ->
  ∃ before inner after,
    s = before ++ (o :: inner ++ [c]) ++ after
    ∧ (o ∉ before) ∧ (c ∉ after)
    ∧ slice s (find o s) (rfind c s + 1) = o :: inner ++ [c].
Proof.
  intros Hoc Hstart Hend. unfold find, rfind, slice in *.
  destruct (find_from_spec o s 0) as [[_ Hf]|(b1 & a1 & Hs1 & Hb1 & Hf)];
    [lia|].
  destruct (rfind_from_spec c s 0 (-1)) as [[_ Hr]|(b2 & a2 & Hs2 & Ha2 & Hr)];
    [lia|].
  rewrite Hf, Hr in *.
  assert (Hsplit : ∃ inner, b2 = b1 ++ o :: inner ∧ a1 = inner ++ c :: a2).
  { rewrite Hs1 in Hs2.
    apply app_eq_inv in Hs2 as [(k & Hk1 & Hk2)|(k & Hk1 & Hk2)].
    - destruct k as [|x k].
      + simpl in Hk2. injection Hk2 as Hx _. congruence.
      + simpl in Hk2. injection Hk2 as -> ->.
        subst b1. rewrite length_app in Hend. simpl in Hend. lia.
    - destruct k as [|x k].
      + simpl in Hk2. injection Hk2 as Hx _. congruence.
      + simpl in Hk2. injection Hk2 as <- ->. by exists k. }
  destruct Hsplit as (inner & -> & ->).
  exists b1, inner, a2. repeat split; [| done | done |].
  - rewrite Hs1. simpl. by rewrite <- app_assoc.
  - rewrite Hs1.
    replace (Z.to_nat (0 + Z.of_nat (length b1))) with (length b1) by lia.
    rewrite drop_app_length.
    replace (Z.to_nat (0 + Z.of_nat (length (b1 ++ o :: inner)) + 1) - length b1)
      with (length (o :: inner ++ [c])).
    + change (o :: inner ++ c :: a2) with ((o :: inner) ++ [c] ++ a2).
      rewrite app_assoc. apply take_app_length.
    + rewrite !length_app. simpl. rewrite length_app. simpl. lia.
Qed.

(** The comprehension keeps, in order, the elements that are non-empty
    strings. *)
Lemma nonempty_strings_spec (l : list value) (s : pystr) :
  s ∈ nonempty_strings l ↔ s ≠ [] ∧ VStr s ∈ l.
Proof.
  induction l as [|x l IH].
  - split; [by intros ?%elem_of_nil | by intros [_ ?%elem_of_nil]].
  - assert (Hskip : (∀ c t, x ≠ VStr (c :: t)) ->
                    (s ∈ nonempty_strings l ↔ s ≠ [] ∧ VStr s ∈ x :: l)).
    { intros Hx. rewrite IH. split; intros [Hs Hin]; (split; [done|]).
      - by right.
      - apply elem_of_cons in Hin as [<-|?]; [|done].
        destruct s as [|c0 t0]; [done | by destruct (Hx c0 t0)]. }
    destruct x as [| | |[|c t]| | |]; cbn [nonempty_strings];
      try (apply Hskip; congruence).
    split.
    + intros [->|Hin]%elem_of_cons.
      * split; [done | by left].
      * apply IH in Hin as [Hs Hin]. split; [done | by right].
    + intros [Hs [[= ->]|Hin]%elem_of_cons]; [by left|].
      right. apply IH. by split.
Qed.

Section Parsing.
Context `{Python}.

(** The reply of the extractor when the text has no bracketed part *)
Lemma parse_facts_unbracketed (response : pystr) :
  (find (ord "[") response < 0
   ∨ rfind (ord "]") response + 1 <= find (ord "[") response)%Z ->
  parse_facts (VStr response) = [].
Proof.
  intros Hno. unfold parse_facts, parse_facts_try.
  destruct (0 <=? find (ord "[") response)%Z eqn:H0; [|reflexivity].
  destruct (find (ord "[") response <? rfind (ord "]") response + 1)%Z eqn:H1;
    [|reflexivity].
  apply Z.leb_le in H0. apply Z.ltb_lt in H1. lia.
Qed.

(** C7.  Parsing the reply of the fact extraction: the text handed to the
    JSON reader runs from the first '[' to the last ']'; without such a
    part, on a reading error, or when the text read is not a sequence, the
    result is the empty list; of a list, the non-empty strings are kept and
    everything else is dropped.  The function is total: nothing is raised.
    The reply "garbage {not json" gives the empty list. *)
Theorem parse_facts_is_defensive (response : pystr) :
  let json_start := find (ord "[") response in
  let json_end := (rfind (ord "]") response + 1)%Z in
  let json_str := slice response json_start json_end in
  ((0 <= json_start < json_end)%Z ->
     ∃ before inner after,
       response = before ++ json_str ++ after
       ∧ json_str = ord "[" :: inner ++ [ord "]"]
       ∧ (ord "[" ∉ before) ∧ (ord "]" ∉ after))
  ∧ (¬ (0 <= json_start < json_end)%Z -> parse_facts (VStr response) = [])
  ∧ (json_loads json_str = None -> parse_facts (VStr response) = [])
  ∧ (∀ v, json_loads json_str = Some v ->
          v = VNone ∨ (∃ b, v = VBool b) ∨ (∃ z, v = VInt z) ->
          parse_facts (VStr response) = [])
  ∧ (∀ l, (0 <= json_start < json_end)%Z ->
          json_loads json_str = Some (VList l) ->
          parse_facts (VStr response) = nonempty_strings l
          ∧ ∀ s, s ∈ parse_facts (VStr response) ↔ s ≠ [] ∧ VStr s ∈ l)
  ∧ (∀ v, is_str v = false -> parse_facts v = [])
  ∧ parse_facts (VStr (u "garbage {not json")) = [].
Proof.
  cbv zeta. split_and!.
  - intros [H0 H1].
    destruct (slice_first_to_last (ord "[") (ord "]") response)
      as (b & inner & a & Hs & Hb & Ha & Hslice); [done | done | done |].
    exists b, inner, a. by rewrite Hslice.
  - intros Hno. apply parse_facts_unbracketed. lia.
  - intros Hnone. unfold parse_facts, parse_facts_try. cbv zeta.
    rewrite Hnone. by destruct (_ && _).
  - intros v Hv Hshape. unfold parse_facts, parse_facts_try. cbv zeta.
    rewrite Hv. destruct (_ && _); [|reflexivity].
    by destruct Hshape as [->|[[b ->]|[z ->]]].
  - intros l [H0 H1] Hl.
    assert (Heq : parse_facts (VStr response) = nonempty_strings l).
    { unfold parse_facts, parse_facts_try. cbv zeta. rewrite Hl.
      apply Z.leb_le in H0. apply Z.ltb_lt in H1. by rewrite H0, H1. }
    split; [exact Heq|].
    intros s. rewrite Heq. apply nonempty_strings_spec.
  - intros v Hv. by destruct v.
  - reflexivity.
Qed.

End Parsing.

(** The reply of a model that wraps its list in prose: the two facts are
    kept, the empty string and the number are dropped. *)
Lemma parse_facts_is_defensive_witness :
  parse_facts (H := latin_cyrillic) (VStr example_facts_reply)
  = [u "любит джаз"; u "живёт в Москве"].
Proof.
  pose proof (parse_facts_is_defensive (H := latin_cyrillic) example_facts_reply)
    as (_ & _ & _ & _ & Hlist & _).
  destruct (Hlist [VStr (u "любит джаз"); VStr []; VInt 5; VStr (u "живёт в Москве")])
    as [-> _];
    [vm_compute; split; congruence | vm_compute; reflexivity | vm_compute; reflexivity].
Defined.

(** ** The memory system *)

Ltac keys_differ :=
  let E := fresh in intros E; vm_compute in E; discriminate E.

(** Unfold the operations of the two monads and compute. *)
Ltac run :=
  repeat (progress (unfold mbind, mret, M_bind, M_ret, result_bind, result_ret,
                      lift, gets, modify, raise, now, write_json; simpl)).

Section Memory.
Context `{Python}.

Lemma save_memory_dict (st : State) (m : dict) :
  memory st = VDict m ->
  _save_memory st = (Ok tt, saved m st).
Proof.
  intros Hm. unfold _save_memory, saved. run. rewrite Hm. reflexivity.
Qed.


Lemma profile_field_written (st : State) (m profile : dict) (field : pystr)
    (v : value) (key : pystr) :
  profile_field (profile_written m profile field v st) key
  = if decide (field = key) then Some v else dict_get key profile.
Proof.
  unfold profile_field, profile_written, saved. simpl.
  rewrite dict_get_set_ne by keys_differ.
  rewrite dict_get_set_eq. apply dict_get_set.
Qed.

End Memory.

(** ** The short-message heuristic *)

Tactic Notation "fold_field_set" constr(d) constr(key) :=
  change (truthy match dict_get (u key) d with Some x => x | None => VNone end)
    with (field_set d key).

Section Heuristic.
Context `{Python}.


End Heuristic.

(** ** The name and nickname patterns *)

Section Patterns.
Context `{Python}.

Lemma accepted_test (k : nat) (group1 : pystr) :
  (k <? length (strip group1))
  && negb (bool_decide (str_lower (strip group1) ∈ stop_words)) = true
  ↔ accepted (S k) group1.
Proof.
  unfold accepted. rewrite andb_true_iff, negb_true_iff, Nat.ltb_lt.
  rewrite bool_decide_eq_false. split; intros [? ?]; split; (lia || done).
Qed.

(** The loop over the patterns gives the first accepted match. *)
Lemma first_accepted_spec (k : nat) (patterns : list regex)
    (message_lower result : pystr) :
  first_accepted k patterns message_lower = Some result
  ↔ first_accepted_match (S k) patterns message_lower result.
Proof.
  induction patterns as [|p ps IH]; simpl.
  - split; [done|]. intros (before & ? & ? & ? & Hsplit & _).
    by destruct before.
  - destruct (re_search p message_lower) as [g|] eqn:Hg.
    + destruct (_ && _) eqn:Hacc.
      * apply accepted_test in Hacc. split.
        -- intros [= <-]. exists [], p, ps, g. split_and!; try done.
           intros ? ? Hin. by apply elem_of_nil in Hin.
        -- intros (before & p' & after & g' & Hsplit & Hg' & Hacc' & -> & Hbefore).
           destruct before as [|b before]; simpl in Hsplit.
           ++ injection Hsplit as <- <-. congruence.
           ++ injection Hsplit as <- ->.
              destruct (Hbefore p g); [by left | done | done].
      * assert (Hrej : ¬ accepted (S k) g).
        { intros Hacc'. apply accepted_test in Hacc'. congruence. }
        rewrite IH. split.
        -- intros (before & p' & after & g' & -> & Hg' & Hacc' & -> & Hbefore).
           exists (p :: before), p', after, g'. split_and!; try done.
           intros e ge [->|Hin]%elem_of_cons He; [congruence | by eapply Hbefore].
        -- intros (before & p' & after & g' & Hsplit & Hg' & Hacc' & -> & Hbefore).
           destruct before as [|b before]; simpl in Hsplit.
           ++ injection Hsplit as <- <-. congruence.
           ++ injection Hsplit as <- ->.
              exists before, p', after, g'. split_and!; try done.
              intros e ge Hin He. eapply Hbefore; [by right | done].
    + rewrite IH. split.
      * intros (before & p' & after & g' & -> & Hg' & Hacc' & -> & Hbefore).
        exists (p :: before), p', after, g'. split_and!; try done.
        intros e ge [->|Hin]%elem_of_cons He; [congruence | by eapply Hbefore].
      * intros (before & p' & after & g' & Hsplit & Hg' & Hacc' & -> & Hbefore).
        destruct before as [|b before]; simpl in Hsplit.
        -- injection Hsplit as <- <-. congruence.
        -- injection Hsplit as <- ->.
           exists before, p', after, g'. split_and!; try done.
           intros e ge Hin He. eapply Hbefore; [by right | done].
Qed.

(** [update_profile] either leaves the state as it is or writes the field
    into the profile of a well-formed memory. *)
Lemma update_profile_cases (field : pystr) (v : value) (st : State) :
  (update_profile field v st).2 = st
  ∨ ∃ m profile,
      memory st = VDict m
      ∧ dict_get (u "user_profile") m = Some (VDict profile)
      ∧ update_profile field v st
        = (Ok true, profile_written m profile field v st).
Proof.
  unfold update_profile. run.
  destruct (memory st) as [| | | | |m|] eqn:Hm; try by left.
  run. destruct (dict_get (u "user_profile") m) as [p|] eqn:Hp; [|by left].
  run. destruct p as [| | |s|l|profile|]; run; try by left.
  - destruct (contains field s); by left.
  - destruct (existsb _ l); by left.
  - destruct (bool_decide _); [|by left].
    right. by exists m, profile.
Qed.

Lemma update_if_new_keeps (field : string) (key : pystr)
    (found : option pystr) (st : State) :
  u field ≠ key ->
  profile_field (update_if_new field found st).2 key = profile_field st key.
Proof.
  intros Hne. unfold update_if_new.
  destruct found as [[|c text]|]; try reflexivity.
  run. destruct (getitem (memory st) (u "user_profile")) as [p|]; [|reflexivity].
  run. destruct (get_method p (u field) VNone) as [stored|]; [|reflexivity].
  run. destruct (_ || _); [|reflexivity].
  unfold mbind, M_bind.
  destruct (update_profile_cases (u field) (VStr (c :: text)) st)
    as [Hsame|(m & profile & Hm & Hp & ->)].
  - destruct (update_profile _ _ st) as [[b|e] st']; simpl in *; by subst.
  - simpl. rewrite profile_field_written, decide_False by done.
    unfold profile_field. by rewrite Hm, Hp.
Qed.

(** C3, as the program has it.  In the pattern strategy the name comes from
    the first name pattern whose match has at least three characters and is
    not a stop word, and the nickname from the first nickname pattern whose
    match has at least two characters and is not a stop word; a rejected
    match is passed over, and when every match of a list is rejected the
    strategy leaves that field of the profile as it is. *)
Theorem patterns_take_first_accepted_match (user_message : pystr) (st : State) :
  let message_lower := strip (str_lower user_message) in
  (∀ name, find_name message_lower = Some name
           ↔ first_accepted_match 3 name_patterns message_lower name)
  ∧ (∀ nickname, find_nickname message_lower = Some nickname
                 ↔ first_accepted_match 2 nickname_patterns message_lower nickname)
  ∧ (find_name message_lower = None ->
     profile_field (pattern_strategy user_message st).2 (u "name")
     = profile_field st (u "name"))
  ∧ (find_nickname message_lower = None ->
     profile_field (pattern_strategy user_message st).2 (u "nickname")
     = profile_field st (u "nickname")).
Proof.
  cbv zeta. split_and!.
  - intros name. apply first_accepted_spec.
  - intros nickname. apply first_accepted_spec.
  - intros Hnone. unfold pattern_strategy. rewrite Hnone.
    unfold mbind, M_bind. simpl.
    pose proof (update_if_new_keeps "nickname" (u "name")
                  (find_nickname (strip (str_lower user_message))) st) as Hk.
    destruct (update_if_new "nickname" _ st) as [[b|e] st']; simpl in *;
      apply Hk; keys_differ.
  - intros Hnone. unfold pattern_strategy. rewrite Hnone.
    unfold mbind, M_bind.
    pose proof (update_if_new_keeps "name" (u "nickname")
                  (find_name (strip (str_lower user_message))) st) as Hk.
    destruct (update_if_new "name" _ st) as [[b|e] st']; simpl in *;
      apply Hk; keys_differ.
Qed.

End Patterns.

(** ** Equality of values *)

Lemma dict_get_NoDup (d : dict) (k : pystr) (v : value) :
  NoDup d.*1 -> (k, v) ∈ d -> dict_get k d = Some v.
Proof.
  induction d as [|[k' v'] d IH]; simpl; intros Hnd Hin.
  - by apply elem_of_nil in Hin.
  - apply NoDup_cons in Hnd as [Hk' Hnd].
    apply elem_of_cons in Hin as [[= -> ->]|Hin].
    + by rewrite bool_decide_eq_true_2.
    + rewrite bool_decide_eq_false_2; [by apply IH|].
      intros ->. apply Hk'. apply list_elem_of_fmap. by exists (k, v).
Qed.

Lemma well_formed_list (l : list value) :
  well_formed (VList l) = true ↔ Forall (fun x => well_formed x = true) l.
Proof.
  induction l as [|x l IH]; simpl.
  - split; [by constructor | done].
  - rewrite andb_true_iff, Forall_cons. simpl in IH. by rewrite IH.
Qed.

Lemma well_formed_dict (d : dict) :
  well_formed (VDict d) = true
  ↔ NoDup d.*1 ∧ Forall (fun kv => well_formed kv.2 = true) d.
Proof.
  simpl. rewrite andb_true_iff, bool_decide_eq_true.
  apply and_iff_compat_l.
  induction d as [|[k x] d IH]; simpl.
  - split; [by constructor | done].
  - rewrite andb_true_iff, Forall_cons. simpl. by rewrite IH.
Qed.

(** Equality of two dictionaries, with the inner loop named *)
Lemma py_eq_dict (x y : dict) :
  py_eq (VDict x) (VDict y)
  = (length x =? length y)
    && forallb (fun kv => match dict_get kv.1 y with
                          | Some b => py_eq kv.2 b
                          | None => false
                          end) x.
Proof.
  simpl. f_equal. induction x as [|[k a] x IH]; simpl; [done | by rewrite IH].
Qed.

(** A well-formed value is equal to itself in Python's sense. *)
Lemma py_eq_refl (v : value) : well_formed v = true -> py_eq v v = true.
Proof.
  induction v as [|b|z|s|l IH|d IH|x] using value_ind; intros Hwf.
  - reflexivity.
  - simpl. by rewrite bool_decide_eq_true_2.
  - apply Z.eqb_refl.
  - simpl. by rewrite bool_decide_eq_true_2.
  - apply well_formed_list in Hwf. simpl.
    induction l as [|x l IHl]; [reflexivity|].
    apply Forall_cons in IH as [Hx IH]. apply Forall_cons in Hwf as [Hwx Hwf].
    rewrite Hx by done. simpl. by apply IHl.
  - apply well_formed_dict in Hwf as [Hnd Hwf].
    rewrite py_eq_dict, Nat.eqb_refl. simpl.
    apply forallb_forall. intros [k x] Hin%list_elem_of_In. simpl.
    rewrite (dict_get_NoDup d k x) by done.
    rewrite Forall_forall in IH, Hwf.
    apply (IH (k, x) Hin). apply (Hwf (k, x) Hin).
  - exact Hwf.
Qed.

Lemma py_eq_false_ne (a b : value) :
  well_formed a = true -> py_eq a b = false -> a ≠ b.
Proof. intros Hwf Hne ->. rewrite py_eq_refl in Hne; done. Qed.

(** ** The profile merge *)

Lemma dict_get_elem (d : dict) (k : pystr) (v : value) :
  dict_get k d = Some v -> (k, v) ∈ d.
Proof.
  induction d as [|[k' v'] d IH]; simpl; [done|].
  destruct (decide (k' = k)) as [->|Hne].
  - rewrite bool_decide_eq_true_2 by done. intros [= ->]. by left.
  - rewrite bool_decide_eq_false_2 by done. intros ?. right. by apply IH.
Qed.

Lemma dict_get_absent (d : dict) (k : pystr) :
  k ∉ d.*1 -> dict_get k d = None.
Proof.
  intros Hk. destruct (dict_get k d) as [v|] eqn:Hget; [|done].
  destruct Hk. apply list_elem_of_fmap. exists (k, v).
  split; [done | by apply dict_get_elem].
Qed.

Section Merge.
Context `{Python}.



Lemma writes_same_stored (p p' : dict) (kv : pystr * value) :
  dict_get kv.1 p' = dict_get kv.1 p -> writes p' kv = writes p kv.
Proof. unfold writes. by intros ->. Qed.




End Merge.

Section MergePolicy.
Context `{Python}.







End MergePolicy.

(** ** The context renderer *)

(** Membership in a list that is written out *)
Ltac in_list := by repeat constructor.

Lemma startswith_app (p x : pystr) : startswith p (p ++ x) = true.
Proof.
  induction p as [|a p IH]; simpl; [by destruct x|].
  by rewrite N.eqb_refl.
Qed.

Lemma startswith_app_r (p s x : pystr) :
  startswith p s = true -> startswith p (s ++ x) = true.
Proof.
  revert s. induction p as [|a p IH]; intros s; simpl.
  - by destruct (s ++ x).
  - destruct s as [|b s]; simpl; [done|].
    intros [-> Hp]%andb_true_iff. simpl. by apply IH.
Qed.

Lemma labelled_label (label : string) (x : pystr) :
  label ∈ part_labels -> labelled (u label ++ x) = true.
Proof.
  intros Hin. unfold labelled. apply existsb_exists. exists label.
  split; [by apply list_elem_of_In | apply startswith_app].
Qed.

Lemma labelled_app (p x : pystr) : labelled p = true -> labelled (p ++ x) = true.
Proof.
  unfold labelled. intros (label & Hin & Hp)%existsb_exists.
  apply existsb_exists.
  exists label. split; [done | by apply startswith_app_r].
Qed.

(** A context that begins with a labelled part is not the sentinel. *)
Lemma joined_parts_not_sentinel (sep : pystr) (parts : list pystr) :
  parts ≠ [] ->
  Forall (fun p => labelled p = true) parts ->
  join sep parts ≠ MEMORY_EMPTY.
Proof.
  intros Hne Hgood.
  destruct parts as [|p ps]; [done|]. apply Forall_cons in Hgood as [Hp _].
  assert (Hl : labelled (join sep (p :: ps)) = true).
  { simpl. destruct ps; [done|]. by apply labelled_app. }
  intros Heq. rewrite Heq in Hl. by vm_compute in Hl.
Qed.

Section Renderer.
Context `{Python}.

Lemma step_result (label : string) (v : value) (r : result pystr)
    (parts : list pystr) :
  label ∈ part_labels ->
  Forall (fun p => labelled p = true) parts ->
  match (if truthy v
         then x ← r; Ok (parts ++ [u label ++ x])
         else Ok parts) with
  | Raise _ => truthy v = true
  | Ok parts' =>
      Forall (fun p => labelled p = true) parts'
      ∧ (parts' = [] ↔ parts = [] ∧ truthy v = false)
  end.
Proof.
  intros Hlabel Hgood. destruct (truthy v).
  - destruct r as [x|e]; simpl; [|done]. split.
    + apply Forall_app. split; [done|].
      apply Forall_singleton. by apply labelled_label.
    + split; [by intros [_ [=]]%app_nil | by intros [_ ?]].
  - simpl. split; [done|]. split; [done | by intros [? _]].
Qed.

Lemma scalar_part_spec (profile : dict) (key label : string) (v : value) :
  label ∈ part_labels ->
  dict_get (u key) profile = Some v ->
  step_spec label v (scalar_part (VDict profile) key label).
Proof.
  intros Hlabel Hv parts Hgood. unfold scalar_part. simpl. rewrite Hv. simpl.
  apply (step_result label v (Ok (format_value v))); done.
Qed.

Lemma list_part_spec (owner : dict) (key label : string) (v : value) :
  label ∈ part_labels ->
  dict_get (u key) owner = Some v ->
  step_spec label v (list_part (VDict owner) key label).
Proof.
  intros Hlabel Hv parts Hgood. unfold list_part. simpl. rewrite Hv. simpl.
  apply (step_result label v (join_value (u ", ") v)); done.
Qed.

Lemma items_part_spec (owner : dict) (key label : string) (v : value)
    (show : pystr -> value -> result pystr) :
  label ∈ part_labels ->
  dict_get (u key) owner = Some v ->
  step_spec label v (items_part (VDict owner) key label show).
Proof.
  intros Hlabel Hv parts Hgood. unfold items_part. simpl. rewrite Hv. simpl.
  pose proof (step_result label v
                (kvs ← items v;
                 shown ← traverse (fun kv => show kv.1 kv.2) kvs;
                 Ok (join (u ", ") shown)) parts Hlabel Hgood) as Hstep.
  destruct (truthy v); [|done].
  destruct (items v) as [kvs|]; [|done]. simpl in *.
  by destruct (traverse _ kvs).
Qed.

Lemma facts_part_spec (m : dict) (v : value) :
  dict_get (u "facts") m = Some v ->
  step_spec "Что я знаю о пользователе:" v (facts_part (VDict m)).
Proof.
  intros Hv parts Hgood. unfold facts_part. simpl. rewrite Hv. simpl.
  pose proof (step_result "Что я знаю о пользователе:" v
                (recent_facts ← slice_last 10 v;
                 entries ← iterate recent_facts;
                 facts_list ← traverse (fun f => getitem f (u "fact")) entries;
                 Ok (nl ++ join nl (map (fun f => u "- " ++ format_value f) facts_list)))
                parts ltac:(in_list) Hgood) as Hstep.
  destruct (truthy v); [|done].
  destruct (slice_last 10 v) as [recent|]; [|done]. simpl in *.
  destruct (iterate recent) as [entries|]; [|done]. simpl in *.
  by destruct (traverse _ entries).
Qed.

End Renderer.

Section RendererSentinel.
Context `{Python}.

(** One step of the chain in [render_context]: either it raises, and then
    its section is set, or the chain goes on with labelled parts. *)
Ltac render_step Hspec old Hold parts Hgood Hnil Hset :=
  let Hstep := fresh "Hstep" in
  pose proof (Hspec old Hold) as Hstep;
  unfold mbind at 1; unfold result_bind at 1;
  match type of Hstep with
  | match ?call with _ => _ end =>
      destruct call as [parts|?]; [destruct Hstep as [Hgood Hnil] | rename Hstep into Hset]
  end.

(** A section that is set refutes [nothing_known]. *)
Ltac section_set key Hv Hset :=
  split; [done|];
  let Hp := fresh in let Hm := fresh in
  intros [Hp Hm];
  first [specialize (Hp key ltac:(in_list)); unfold field_set in Hp;
         rewrite Hv in Hp; simpl in Hp; congruence
        |specialize (Hm key ltac:(in_list)); unfold field_set in Hm;
         rewrite Hv in Hm; simpl in Hm; congruence].

(** C5, as the program has it.  On a memory that has the sections the
    renderer reads, the renderer returns the sentinel exactly when no
    section is set, where a section is set when it holds a value that
    Python treats as true: when nothing is set the result is the sentinel,
    and when something is set the renderer never returns the sentinel (it
    returns the labelled parts, or raises on a section of the wrong
    type). *)
Theorem render_sentinel_iff_nothing_set (m profile : dict) :
  has_sections m profile ->
  (render_context (VDict m) = Ok MEMORY_EMPTY ↔ nothing_known m profile).
Proof.
  intros (Hp & Hpk & Hmk).
  destruct (Hpk "name"%string ltac:(in_list)) as [v1 Hv1].
  destruct (Hpk "nickname"%string ltac:(in_list)) as [v2 Hv2].
  destruct (Hpk "age"%string ltac:(in_list)) as [v3 Hv3].
  destruct (Hpk "location"%string ltac:(in_list)) as [v4 Hv4].
  destruct (Hpk "occupation"%string ltac:(in_list)) as [v5 Hv5].
  destruct (Hpk "interests"%string ltac:(in_list)) as [v6 Hv6].
  destruct (Hpk "goals"%string ltac:(in_list)) as [v7 Hv7].
  destruct (Hpk "preferences"%string ltac:(in_list)) as [v8 Hv8].
  destruct (Hmk "relationships"%string ltac:(in_list)) as [v9 Hv9].
  destruct (Hmk "important_dates"%string ltac:(in_list)) as [v10 Hv10].
  destruct (Hmk "habits"%string ltac:(in_list)) as [v11 Hv11].
  destruct (Hmk "facts"%string ltac:(in_list)) as [v12 Hv12].
  assert (Hgood0 : Forall (fun p => labelled p = true) (@nil pystr)) by constructor.
  unfold render_context.
  unfold mbind at 1; unfold result_bind at 1. simpl getitem. rewrite Hp.
  render_step (scalar_part_spec profile "name" "Имя пользователя: " v1
                 ltac:(in_list) Hv1) (@nil pystr) Hgood0 p1 Hg1 Hn1 Hs;
    [|section_set "name"%string Hv1 Hs].
  render_step (scalar_part_spec profile "nickname" "Прозвище: " v2
                 ltac:(in_list) Hv2) p1 Hg1 p2 Hg2 Hn2 Hs;
    [|section_set "nickname"%string Hv2 Hs].
  render_step (scalar_part_spec profile "age" "Возраст: " v3
                 ltac:(in_list) Hv3) p2 Hg2 p3 Hg3 Hn3 Hs;
    [|section_set "age"%string Hv3 Hs].
  render_step (scalar_part_spec profile "location" "Местоположение: " v4
                 ltac:(in_list) Hv4) p3 Hg3 p4 Hg4 Hn4 Hs;
    [|section_set "location"%string Hv4 Hs].
  render_step (scalar_part_spec profile "occupation" "Род занятий: " v5
                 ltac:(in_list) Hv5) p4 Hg4 p5 Hg5 Hn5 Hs;
    [|section_set "occupation"%string Hv5 Hs].
  render_step (list_part_spec profile "interests" "Интересы: " v6
                 ltac:(in_list) Hv6) p5 Hg5 p6 Hg6 Hn6 Hs;
    [|section_set "interests"%string Hv6 Hs].
  render_step (list_part_spec profile "goals" "Цели: " v7
                 ltac:(in_list) Hv7) p6 Hg6 p7 Hg7 Hn7 Hs;
    [|section_set "goals"%string Hv7 Hs].
  render_step (items_part_spec profile "preferences" "Предпочтения: " v8
                 (fun k v => Ok (k ++ u ": " ++ format_value v))
                 ltac:(in_list) Hv8) p7 Hg7 p8 Hg8 Hn8 Hs;
    [|section_set "preferences"%string Hv8 Hs].
  render_step (items_part_spec m "relationships" "Близкие люди: " v9
                 (fun name info =>
                    relation ← getitem info (u "relation");
                    Ok (name ++ u " (" ++ format_value relation ++ u ")"))
                 ltac:(in_list) Hv9) p8 Hg8 p9 Hg9 Hn9 Hs;
    [|section_set "relationships"%string Hv9 Hs].
  render_step (items_part_spec m "important_dates" "Важные даты: " v10
                 (fun name info =>
                    date ← getitem info (u "date");
                    Ok (name ++ u ": " ++ format_value date))
                 ltac:(in_list) Hv10) p9 Hg9 p10 Hg10 Hn10 Hs;
    [|section_set "important_dates"%string Hv10 Hs].
  render_step (list_part_spec m "habits" "Привычки: " v11
                 ltac:(in_list) Hv11) p10 Hg10 p11 Hg11 Hn11 Hs;
    [|section_set "habits"%string Hv11 Hs].
  render_step (facts_part_spec m v12 Hv12) p11 Hg11 p12 Hg12 Hn12 Hs;
    [|section_set "facts"%string Hv12 Hs].
  assert (Hnil : p12 = [] ↔ nothing_known m profile).
  { rewrite Hn12, Hn11, Hn10, Hn9, Hn8, Hn7, Hn6, Hn5, Hn4, Hn3, Hn2, Hn1.
    unfold nothing_known, field_set. split.
    - intros ((((((((((((_ & T1) & T2) & T3) & T4) & T5) & T6) & T7) & T8)
                  & T9) & T10) & T11) & T12).
      split; intros key Hkey;
        repeat (apply elem_of_cons in Hkey as [->|Hkey];
                [by rewrite ?Hv1, ?Hv2, ?Hv3, ?Hv4, ?Hv5, ?Hv6, ?Hv7, ?Hv8,
                            ?Hv9, ?Hv10, ?Hv11, ?Hv12|]);
        by apply elem_of_nil in Hkey.
    - intros [Hprofile Hmemory].
      pose proof (Hprofile "name"%string ltac:(in_list)) as T1.
      pose proof (Hprofile "nickname"%string ltac:(in_list)) as T2.
      pose proof (Hprofile "age"%string ltac:(in_list)) as T3.
      pose proof (Hprofile "location"%string ltac:(in_list)) as T4.
      pose proof (Hprofile "occupation"%string ltac:(in_list)) as T5.
      pose proof (Hprofile "interests"%string ltac:(in_list)) as T6.
      pose proof (Hprofile "goals"%string ltac:(in_list)) as T7.
      pose proof (Hprofile "preferences"%string ltac:(in_list)) as T8.
      pose proof (Hmemory "relationships"%string ltac:(in_list)) as T9.
      pose proof (Hmemory "important_dates"%string ltac:(in_list)) as T10.
      pose proof (Hmemory "habits"%string ltac:(in_list)) as T11.
      pose proof (Hmemory "facts"%string ltac:(in_list)) as T12.
      rewrite Hv1 in T1. rewrite Hv2 in T2. rewrite Hv3 in T3.
      rewrite Hv4 in T4. rewrite Hv5 in T5. rewrite Hv6 in T6.
      rewrite Hv7 in T7. rewrite Hv8 in T8. rewrite Hv9 in T9.
      rewrite Hv10 in T10. rewrite Hv11 in T11. rewrite Hv12 in T12.
      by repeat split. }
  rewrite <- Hnil. destruct p12 as [|p ps]; simpl.
  - done.
  - split; [|done]. intros [= Heq].
    by apply (joined_parts_not_sentinel (nl ++ nl) (p :: ps)) in Heq.
Qed.

End RendererSentinel.

(** ** Export and import *)

Lemma dict_get_update (d e : dict) (k : pystr) :
  NoDup e.*1 ->
  dict_get k (dict_update d e)
  = match dict_get k e with
    | Some v => Some v
    | None => dict_get k d
    end.
Proof.
  unfold dict_update. revert d.
  induction e as [|[k0 v0] e IH]; intros d Hnd; simpl; [done|].
  apply NoDup_cons in Hnd as [Hk0 Hnd]. rewrite IH by done.
  destruct (decide (k0 = k)) as [->|Hne].
  - rewrite bool_decide_eq_true_2 by done.
    by rewrite dict_get_absent, dict_get_set_eq.
  - rewrite bool_decide_eq_false_2 by done.
    by rewrite dict_get_set_ne.
Qed.

(** Export and import while every write succeeds: every top-level key of
    the snapshot comes back, except [updated_at], which the save sets. *)
Lemma export_then_import_snapshot (path : string)
    (st : State) (m : dict) :
  memory st = VDict m ->
  NoDup m.*1 ->
  path ≠ MEMORY_FILE ->
  ∃ st' m' empty,
    export_then_import path st = (Ok tt, st')
    ∧ memory st' = VDict m'
    ∧ _empty_memory st = (Ok (VDict empty), set_ticks (S (ticks st)) st)
    ∧ (∀ key v, key ≠ u "updated_at" ->
                dict_get key m = Some v -> dict_get key m' = Some v)
    ∧ (∀ key, key ≠ u "updated_at" ->
              dict_get key m = None -> dict_get key m' = dict_get key empty)
    ∧ dict_get (u "updated_at") m' = Some (VStr (clock st (2 + ticks st)))
    ∧ fs st' !! MEMORY_FILE = Some [VDict m']
    ∧ fs st' !! path = Some [VDict m].
Proof.
  intros Hm Hnd Hpath.
  eexists _, _, _. split_and!.
  - unfold export_then_import, export_memory, MemorySystem_init,
      _load_memory, import_memory, read_json, _save_memory, _empty_memory.
    run. rewrite Hm. run.
    rewrite lookup_delete_eq. run.
    rewrite lookup_delete_ne, lookup_insert_eq by done. run.
    reflexivity.
  - reflexivity.
  - reflexivity.
  - intros key v Hkey Hget. rewrite dict_get_set_ne by done.
    by rewrite dict_get_update, Hget.
  - intros key Hkey Hget. rewrite dict_get_set_ne by done.
    by rewrite dict_get_update, Hget.
  - by rewrite dict_get_set_eq.
  - simpl. by rewrite lookup_insert_eq.
  - simpl. rewrite lookup_insert_ne by done.
    by rewrite lookup_delete_ne, lookup_insert_eq.
Qed.

(** ** A turn whose answer cannot be requested *)

Section Turn.
Context `{Python}.



End Turn.

(** ** The save that can fail *)

Lemma dict_set_keys (k : pystr) (v : value) (d : dict) :
  is_Some (dict_get k d) -> (dict_set k v d).*1 = d.*1.
Proof.
  induction d as [|[k' v'] d IH]; [by intros [? [=]]|].
  cbn [dict_get dict_set]. case_bool_decide as Hk; rewrite !fmap_cons; cbn [fst].
  - by rewrite Hk.
  - intros Hsome. by rewrite IH.
Qed.

Lemma encodable_dict (d : dict) :
  encodable (VDict d) = true
  ↔ Forall (fun kv => str_encodable kv.1 = true ∧ encodable kv.2 = true) d.
Proof.
  simpl. induction d as [|[k x] d IH]; simpl.
  - split; [by constructor | done].
  - rewrite !andb_true_iff, Forall_cons. simpl. by rewrite IH.
Qed.


Lemma encodable_dict_set (d : dict) (k : pystr) (v : value) :
  encodable (VDict d) = true -> str_encodable k = true -> encodable v = true ->
  encodable (VDict (dict_set k v d)) = true.
Proof.
  rewrite !encodable_dict. intros Hd Hk Hv.
  induction d as [|[k' v'] d IH]; simpl.
  - by repeat constructor.
  - apply Forall_cons in Hd as [Hkv Hd].
    case_bool_decide; constructor; try done. by apply IH.
Qed.

Lemma encodable_dict_update (d e : dict) :
  encodable (VDict d) = true -> encodable (VDict e) = true ->
  encodable (VDict (dict_update d e)) = true.
Proof.
  unfold dict_update. revert d.
  induction e as [|[k v] e IH]; intros d Hd He; simpl; [done|].
  apply encodable_dict, Forall_cons in He as [[Hk Hv] He]. simpl in *.
  apply IH; [by apply encodable_dict_set | by apply encodable_dict].
Qed.

Ltac literal_key := vm_compute; reflexivity.

#[local] Arguments encodable : simpl never.

Section StrictSave.
Context `{Python}.

(** A document that can be encoded is written. *)
Lemma dump_json_encodable (path : string) (doc : value) (st : State) :
  encodable doc = true -> dump_json path doc st = write_json path doc st.
Proof. intros Hdoc. unfold dump_json. by rewrite Hdoc. Qed.

(** A document that cannot be encoded leaves the file without one. *)
Lemma dump_json_fails (path : string) (doc : value) (st : State) :
  encodable doc = false ->
  dump_json path doc st
  = (Raise UnicodeEncodeError, set_fs (<[path := []]> (fs st)) st).
Proof. intros Hdoc. unfold dump_json. by rewrite Hdoc. Qed.

Lemma save_memory_strict_dict (st : State) (m : dict) :
  memory st = VDict m ->
  let m' := dict_set (u "updated_at") (VStr (clock st (ticks st))) m in
  _save_memory_strict st
  = if encodable (VDict m') then (Ok tt, saved m st)
    else (Raise UnicodeEncodeError,
          set_fs (<[MEMORY_FILE := []]> (fs st))
            (set_memory (VDict m') (set_ticks (S (ticks st)) st))).
Proof.
  intros Hm m'. unfold _save_memory_strict, dump_json, saved. run.
  rewrite Hm. run. fold m'.
  by destruct (encodable (VDict m')).
Qed.

Lemma save_memory_strict_encodable (st : State) (m : dict) :
  memory st = VDict m ->
  encodable (VDict m) = true ->
  str_encodable (clock st (ticks st)) = true ->
  _save_memory_strict st = _save_memory st.
Proof.
  intros Hm Henc Hclock.
  rewrite (save_memory_strict_dict st m Hm), (save_memory_dict st m Hm).
  cbv zeta. rewrite encodable_dict_set; [done | done | literal_key | done].
Qed.







Lemma import_memory_strict_encodable (path : string) (st : State)
    (d e : dict) :
  memory st = VDict d ->
  fs st !! path = Some [VDict e] ->
  encodable (VDict d) = true ->
  encodable (VDict e) = true ->
  str_encodable (clock st (ticks st)) = true ->
  import_memory_strict path st = import_memory path st.
Proof.
  intros Hm Hfile Hd He Hclock. unfold import_memory_strict, import_memory, read_json.
  run. rewrite Hfile. run. rewrite Hm. run.
  set (st1 := set_memory _ st).
  assert (Hsave : _save_memory_strict st1 = _save_memory st1).
  { eapply save_memory_strict_encodable; [reflexivity | | done].
    by apply encodable_dict_update. }
  by rewrite Hsave.
Qed.

(** C2, as the program has it.  For a store that can be written, after an
    export and an import of the same file into a store that starts empty,
    every top-level key of the original snapshot holds its original value,
    except [updated_at]: the import saves the memory, and saving sets
    [updated_at] to the time of the save.  A key that the snapshot does not
    have keeps the value of the empty store.  The memory file then holds
    the imported memory.  A store that cannot be written is not exported:
    the export raises and leaves a file without a document. *)
Theorem export_import_restores_all_but_updated_at (path : string)
    (st : State) (m : dict) :
  memory st = VDict m ->
  NoDup m.*1 ->
  path ≠ MEMORY_FILE ->
  clock_encodable st ->
  (encodable (VDict m) = true ->
   ∃ st' m' empty,
     export_then_import_strict path st = (Ok tt, st')
     ∧ memory st' = VDict m'
     ∧ _empty_memory st = (Ok (VDict empty), set_ticks (S (ticks st)) st)
     ∧ (∀ key v, key ≠ u "updated_at" ->
                 dict_get key m = Some v -> dict_get key m' = Some v)
     ∧ (∀ key, key ≠ u "updated_at" ->
               dict_get key m = None -> dict_get key m' = dict_get key empty)
     ∧ dict_get (u "updated_at") m' = Some (VStr (clock st (2 + ticks st)))
     ∧ fs st' !! MEMORY_FILE = Some [VDict m']
     ∧ fs st' !! path = Some [VDict m])
  ∧ (encodable (VDict m) = false ->
     export_then_import_strict path st
     = (Raise UnicodeEncodeError, set_fs (<[path := []]> (fs st)) st)).
Proof.
  intros Hm Hnd Hpath Hclock. split.
  - intros Henc.
    assert (Hsame : export_then_import_strict path st = export_then_import path st).
    { unfold export_then_import_strict, export_then_import.
      unfold export_memory_strict, export_memory. run. rewrite Hm.
      rewrite (dump_json_encodable path (VDict m)) by done.
      unfold write_json. run.
      unfold MemorySystem_init, _load_memory, _empty_memory. run.
      rewrite lookup_delete_eq. run.
      erewrite import_memory_strict_encodable; [reflexivity | reflexivity | | | done |].
      - simpl. by rewrite lookup_delete_ne, lookup_insert_eq.
      - apply encodable_dict.
        repeat (constructor;
                [split; [literal_key | first [literal_key | apply (Hclock _)]]|]).
        constructor.
      - apply (Hclock _). }
    rewrite Hsame. by apply export_then_import_snapshot.
  - intros Henc. unfold export_then_import_strict, export_memory_strict. run.
    rewrite Hm. by rewrite (dump_json_fails path (VDict m)).
Qed.

(** X1.  [update_profile] writes the fields that the profile has and no
    other.  On a memory with a profile it answers whether the profile has
    the field, and a field that the profile lacks leaves the state as it
    is, in memory and on disk.  A field that it has takes the value in
    memory, the other fields keep theirs, and the keys of the profile and
    their order stay.  The memory is then saved: when it can be encoded
    the memory file holds it; when it cannot, as with a value that holds a
    lone surrogate, the method raises [UnicodeEncodeError] and the memory
    file is left without a document. *)
Theorem update_profile_writes_known_fields_only (st : State) (m profile : dict)
    (field : pystr) (v : value) :
  memory st = VDict m ->
  dict_get (u "user_profile") m = Some (VDict profile) ->
  let m' :=
    dict_set (u "updated_at") (VStr (clock st (ticks st)))
      (dict_set (u "user_profile") (VDict (dict_set field v profile)) m) in
  (dict_get field profile = None ->
   update_profile_strict field v st = (Ok false, st))
  ∧ (is_Some (dict_get field profile) ->
     ∃ st',
       update_profile_strict field v st
       = (if encodable (VDict m') then Ok true else Raise UnicodeEncodeError, st')
       ∧ memory st' = VDict m'
       ∧ profile_field st' field = Some v
       ∧ (∀ key, key ≠ field -> profile_field st' key = dict_get key profile)
       ∧ (dict_set field v profile).*1 = profile.*1
       ∧ (if encodable (VDict m') then synced st' else damaged st')).
Proof.
  intros Hm Hp m'. split.
  - intros Hfield. unfold update_profile_strict. run. rewrite Hm. run.
    rewrite Hp. run. rewrite Hfield.
    by rewrite bool_decide_eq_false_2 by (by intros [? ?]).
  - intros Hfield.
    assert (Hrun : update_profile_strict field v st
                   = match _save_memory_strict
                             (set_memory
                                (VDict (dict_set (u "user_profile")
                                          (VDict (dict_set field v profile)) m)) st)
                     with
                     | (Ok _, st') => (Ok true, st')
                     | (Raise e, st') => (Raise e, st')
                     end).
    { unfold update_profile_strict. run. rewrite Hm. run. rewrite Hp. run.
      rewrite bool_decide_eq_true_2 by done. run. reflexivity. }
    rewrite Hrun. erewrite save_memory_strict_dict by reflexivity.
    cbv zeta. cbn [clock ticks set_memory]. fold m'.
    assert (Hfields : ∀ key, dict_get key (dict_set field v profile)
                             = if decide (field = key) then Some v
                               else dict_get key profile)
      by (intros key; apply dict_get_set).
    assert (Hprofile : dict_get (u "user_profile") m'
                       = Some (VDict (dict_set field v profile))).
    { unfold m'. rewrite dict_get_set_ne by keys_differ. apply dict_get_set_eq. }
    destruct (encodable (VDict m')); eexists; (split; [reflexivity|]);
      unfold profile_field, synced, damaged, saved; simpl; fold m';
      rewrite ?Hprofile, ?Hfields;
      (split_and!;
       [ done
       | by rewrite decide_True
       | by intros key Hkey; rewrite Hfields, decide_False
       | by apply dict_set_keys
       | by rewrite lookup_insert_eq ]).
Qed.

(** X2.  [add_fact] is an append.  In memory the new entry goes last, the
    entries that were there stay as they are and in their order, every
    other key of the memory but [updated_at] is untouched, and
    [updated_at] is the time of the save.  The memory is then saved: when
    it can be encoded the method returns the entry and the memory file
    holds the new memory; when it cannot, as with a fact that holds a lone
    surrogate, the method raises [UnicodeEncodeError] and the memory file
    is left without a document. *)
Theorem add_fact_appends (st : State) (m : dict) (facts : list value)
    (fact category : pystr) :
  memory st = VDict m ->
  dict_get (u "facts") m = Some (VList facts) ->
  let entry :=
    VDict [(u "fact", VStr fact); (u "category", VStr category);
           (u "added_at", VStr (clock st (ticks st)));
           (u "session", VStr (current_session st))] in
  let m' :=
    dict_set (u "updated_at") (VStr (clock st (S (ticks st))))
      (dict_set (u "facts") (VList (facts ++ [entry])) m) in
  ∃ st',
    add_fact_strict fact category st
    = (if encodable (VDict m') then Ok entry else Raise UnicodeEncodeError, st')
    ∧ memory st' = VDict m'
    ∧ memory_field st' (u "facts") = Some (VList (facts ++ [entry]))
    ∧ (∀ key, key ≠ u "facts" -> key ≠ u "updated_at" ->
              memory_field st' key = memory_field st key)
    ∧ memory_field st' (u "updated_at") = Some (VStr (clock st (S (ticks st))))
    ∧ (if encodable (VDict m') then synced st' else damaged st').
Proof.
  intros Hm Hfacts entry m'.
  assert (Hrun : add_fact_strict fact category st
                 = match _save_memory_strict
                           (set_memory
                              (VDict (dict_set (u "facts")
                                        (VList (facts ++ [entry])) m))
                              (set_ticks (S (ticks st)) st))
                   with
                   | (Ok _, st') => (Ok entry, st')
                   | (Raise e, st') => (Raise e, st')
                   end).
  { unfold add_fact_strict. run. rewrite Hm. run. rewrite Hfacts. run.
    reflexivity. }
  rewrite Hrun. erewrite save_memory_strict_dict by reflexivity.
  cbv zeta. cbn [clock ticks set_memory set_ticks]. fold m'.
  destruct (encodable (VDict m')); eexists; (split; [reflexivity|]);
    unfold memory_field, synced, damaged, saved; simpl; fold m'; rewrite Hm;
    (split_and!;
     [ done
     | unfold m'; rewrite dict_get_set_ne by keys_differ; apply dict_get_set_eq
     | by intros key Hk1 Hk2; unfold m'; rewrite !dict_get_set_ne
     | unfold m'; apply dict_get_set_eq
     | by rewrite lookup_insert_eq ]).
Qed.

End StrictSave.

(** * Examples *)

Section Examples.
#[local] Existing Instance latin_cyrillic.

Ltac compute_eq := vm_compute; reflexivity.
Ltac no_dup := apply (bool_decide_eq_true_1 _); compute_eq.

(** The example clock shows digits, which can be encoded. *)
Lemma digits_encodable (fuel : nat) (n : N) (acc : pystr) :
  str_encodable acc = true -> str_encodable (digits_fuel fuel n acc) = true.
Proof.
  revert n acc. induction fuel as [|fuel IH]; intros n acc Hacc; simpl; [done|].
  assert (Hdigit : str_encodable ((48 + n mod 10)%N :: acc) = true).
  { simpl. rewrite Hacc, andb_true_r. unfold surrogate.
    apply negb_true_iff, andb_false_iff. left. apply N.leb_gt.
    pose proof (N.mod_lt n 10). lia. }
  destruct (n <? 10)%N; [done | by apply IH].
Qed.

Lemma example_clock_encodable (st : State) :
  clock st = example_clock -> clock_encodable st.
Proof.
  intros Hclock n. rewrite Hclock. unfold example_clock, str_encodable.
  rewrite !forallb_app, !andb_true_iff. split_and!.
  - compute_eq.
  - by destruct (n <? 10)%nat.
  - by apply digits_encodable.
Qed.


(** "Вася" on a profile named "Петя": nothing is extracted and the name
    stays. *)
Lemma named_profile_keeps_its_name :
  _extract_name_directly (u "Вася") petya_session = (Ok false, petya_session).
Proof. compute_eq. Qed.

(** C3 as stated fails: "зови меня Ян" matches the fourth nickname pattern;
    the match "ян" has two characters, fewer than three, and yet it is
    accepted and the nickname field is written from it. *)
Lemma two_letter_nickname_is_accepted :
  re_search (lit "зови" ⋅ sp ⋅ lit "меня" ⋅ sp ⋅ word)%regex
    (strip (str_lower (u "зови меня Ян"))) = Some (u "ян")
  ∧ length (u "ян") < 3
  ∧ find_nickname (strip (str_lower (u "зови меня Ян"))) = Some (u "Ян")
  ∧ profile_field (_extract_name_directly (u "зови меня Ян") petya_session).2
      (u "nickname") = Some (VStr (u "Ян")).
Proof. split_and!; [compute_eq | vm_compute; lia | compute_eq | compute_eq]. Qed.





(** C5 as stated fails: a store whose only set field is the age 0 has a
    profile field present, and the renderer returns the sentinel. *)
Lemma age_zero_renders_sentinel :
  dict_get (u "age") (example_profile VNone (VInt 0)) = Some (VInt 0)
  ∧ render_context (example_memory (example_profile VNone (VInt 0)))
    = Ok MEMORY_EMPTY.
Proof. split; compute_eq. Qed.

Lemma example_memory_has_sections (profile : dict) :
  (∀ key, key ∈ profile_sections -> is_Some (dict_get (u key) profile)) ->
  has_sections (example_memory_dict profile) profile.
Proof.
  intros Hprofile. split_and!; [compute_eq | done |].
  intros key Hkey.
  repeat (apply elem_of_cons in Hkey as [->|Hkey]; [eexists; compute_eq|]).
  by apply elem_of_nil in Hkey.
Qed.

(** A store whose only set field is the name: the renderer does not return
    the sentinel. *)
Lemma render_sentinel_iff_nothing_set_witness :
  render_context (example_memory (example_profile (VStr (u "Ann")) VNone))
  ≠ Ok MEMORY_EMPTY.
Proof.
  intros Hsentinel.
  apply (render_sentinel_iff_nothing_set
           (example_memory_dict (example_profile (VStr (u "Ann")) VNone))
           (example_profile (VStr (u "Ann")) VNone)) in Hsentinel.
  - destruct Hsentinel as [Hprofile _].
    specialize (Hprofile "name"%string ltac:(in_list)). by vm_compute in Hprofile.
  - apply example_memory_has_sections. intros key Hkey.
    repeat (apply elem_of_cons in Hkey as [->|Hkey]; [eexists; compute_eq|]).
    by apply elem_of_nil in Hkey.
Defined.

(** C2 as stated fails: a store that was never saved has no [updated_at];
    after export and import the field holds the time of the import. *)
Lemma import_refreshes_updated_at :
  getitem (memory first_session) (u "updated_at") = Ok VNone
  ∧ (export_then_import_strict "backup.json" first_session).1 = Ok tt
  ∧ getitem (memory (export_then_import_strict "backup.json" first_session).2)
      (u "updated_at") = Ok (VStr (u "2025-01-15T10:00:04")).
Proof. split_and!; compute_eq. Qed.

(** The round trip of the empty store: the creation time comes back. *)
Lemma export_import_restores_all_but_updated_at_witness :
  ∃ st' m',
    export_then_import_strict "backup.json" first_session = (Ok tt, st')
    ∧ memory st' = VDict m'
    ∧ dict_get (u "created_at") m' = Some (VStr (u "2025-01-15T10:00:00")).
Proof.
  destruct (export_import_restores_all_but_updated_at "backup.json"
              first_session (example_memory_dict (example_profile VNone VNone)))
    as [Hwritten _];
    [reflexivity | no_dup | done | by apply example_clock_encodable |].
  destruct Hwritten as (st' & m' & empty & Hrun & Hm' & _ & Hkept & _);
    [compute_eq|].
  exists st', m'. split_and!; [done | done |].
  apply Hkept; [by vm_compute | compute_eq].
Defined.



(** C6: the turn "зови меня Петруха" of a user named "Петя", with a model
    that finds no fact.  The fast path writes the nickname only; the name
    field is what it was; and yet the fact "Пользователя зовут Петя" is
    added to the stored facts and written to the log. *)
Theorem nickname_turn_adds_name_fact :
  let run := process_message (u "зови меня Петруха") petya_session in
  run.1 = Ok (VStr (u "Привет!"))
  ∧ profile_field petya_session (u "name") = Some (VStr (u "Петя"))
  ∧ profile_field run.2 (u "name") = Some (VStr (u "Петя"))
  ∧ profile_field run.2 (u "nickname") = Some (VStr (u "Петруха"))
  ∧ find_name (strip (str_lower (u "зови меня Петруха"))) = None
  ∧ fs run.2 !! example_log
    = Some [exchange_record (u "2025-01-15T10:00:05") (u "зови меня Петруха")
              (VStr (u "Привет!")) [u "Пользователя зовут Петя"]].
Proof. cbv zeta. split_and!; compute_eq. Qed.

End Examples.

(** * Further properties of the memory system *)

Section MemoryMethods.
Context `{Python}.

(** X3.  [_load_memory] never raises.  Without a memory file it builds the empty
    schema; with a file that does not hold one JSON document it prints a
    warning and builds the empty schema as well.  The schema is stamped
    with the time of the load. *)
Theorem load_memory_falls_back_to_empty (st : State) :
  (fs st !! MEMORY_FILE = None ->
   _load_memory st = _empty_memory st)
  ∧ (∀ docs, fs st !! MEMORY_FILE = Some docs ->
             (∀ doc, docs ≠ [doc]) ->
             ∃ warning,
               _load_memory st
               = _empty_memory (set_console (console st ++ [warning]) st))
  ∧ ∃ m, (_load_memory st).1 = Ok m.
Proof.
  split_and!.
  - intros Hnone. unfold _load_memory. run. by rewrite Hnone.
  - intros docs Hdocs Hbad. eexists.
    unfold _load_memory, read_json, try_except. run.
    rewrite Hdocs. run. rewrite Hdocs.
    destruct docs as [|doc [|doc' docs]]; try reflexivity.
    by destruct (Hbad doc).
  - unfold _load_memory, read_json, try_except. run.
    destruct (fs st !! MEMORY_FILE) as [docs|] eqn:Hfile; run.
    + rewrite Hfile. destruct docs as [|doc [|doc' docs]]; by eexists.
    + by eexists.
Qed.

(** X4.  A new installation: a [MemorySystem] built without a memory file
    renders the "nothing known" sentinel, whatever the clock shows. *)
Theorem new_store_renders_sentinel (st : State) :
  fs st !! MEMORY_FILE = None ->
  ((MemorySystem_init;; get_memory_context) st).1 = Ok MEMORY_EMPTY.
Proof.
  intros Hnone. unfold MemorySystem_init, _load_memory, get_memory_context.
  run. rewrite Hnone. run. vm_compute. reflexivity.
Qed.

End MemoryMethods.

Section Collections.
Context `{Python}.






End Collections.

(** ** What a turn leaves alone *)

Section Walk.
Context `{Python}.
Variable R : relation State.
Context `{!PreOrder R}.

Lemma respects_ret {A} (a : A) : respects R (mret a).
Proof. intros st. reflexivity. Qed.

Lemma respects_lift {A} (r : result A) : respects R (lift r).
Proof. intros st. reflexivity. Qed.

Lemma respects_gets {A} (f : State -> A) : respects R (gets f).
Proof. intros st. reflexivity. Qed.

Lemma respects_raise {A} (e : exn) : respects R (raise (A := A) e).
Proof. intros st. reflexivity. Qed.

Lemma respects_bind {A B} (c : M A) (f : A -> M B) :
  respects R c -> (∀ a, respects R (f a)) -> respects R (c ≫= f).
Proof.
  intros Hc Hf st. unfold mbind, M_bind. specialize (Hc st).
  destruct (c st) as [[a|e] st1]; simpl in *; [|exact Hc].
  etrans; [exact Hc | apply Hf].
Qed.

Lemma respects_try_except {A} (c : M A) (h : exn -> option (M A)) :
  respects R c -> (∀ e k, h e = Some k -> respects R k) ->
  respects R (try_except c h).
Proof.
  intros Hc Hh st. unfold try_except. specialize (Hc st).
  destruct (c st) as [[a|e] st1]; simpl in *; [exact Hc|].
  destruct (h e) as [k|] eqn:He; simpl; [|exact Hc].
  etrans; [exact Hc | by apply (Hh e k)].
Qed.

Ltac walk :=
  repeat match goal with
    | |- respects _ (mret _) => apply respects_ret
    | |- respects _ (lift _) => apply respects_lift
    | |- respects _ (gets _) => apply respects_gets
    | |- respects _ (raise _) => apply respects_raise
    | |- respects _ (mbind _ _) => apply respects_bind; [|intros ?]
    | |- respects _ (if ?b then _ else _) => destruct b
    | |- respects _ (match ?x with _ => _ end) => destruct x
    | |- respects _ (let _ := _ in _) => cbv zeta
    end.

Hypothesis R_print : ∀ s, respects R (print s).
Hypothesis R_post : ∀ r, respects R (post r).
Hypothesis R_update_profile : ∀ field v, respects R (update_profile field v).
Hypothesis R_add_fact : ∀ fact category, respects R (add_fact fact category).

Lemma respects_read_stream (lines : list pystr) (cut : option pystr)
    (full_response : pystr) :
  respects R (read_stream lines cut full_response).
Proof.
  revert full_response.
  induction lines as [|line rest IH]; intros full_response; simpl.
  - walk.
  - destruct line as [|c line]; [apply IH|].
    destruct (json_loads (c :: line)) as [data|]; [|apply IH].
    walk; try apply R_print; apply IH.
Qed.

Lemma respects_chat_with_model (model : pystr) (messages : list value)
    (system_prompt : option pystr) (stream : bool) :
  respects R (chat_with_model model messages system_prompt stream).
Proof.
  unfold chat_with_model. cbv zeta. apply respects_try_except.
  - apply respects_bind; [apply R_post|]. intros [d|lines cut]; [walk|].
    destruct stream.
    + apply respects_bind; [apply respects_read_stream|]. intros ?.
      apply respects_bind; [apply R_print|]. intros ?. walk.
    + walk.
  - intros [] k [= <-]. unfold print_colored. walk. apply R_print.
Qed.

Lemma respects_extract_facts (model user_message memory_context : pystr) :
  respects R (extract_facts_from_conversation model user_message memory_context).
Proof.
  unfold extract_facts_from_conversation. cbv zeta.
  destruct (_ && _); [walk|].
  apply respects_bind; [apply respects_chat_with_model|]. intros ?. walk.
Qed.

Lemma respects_merge_fields (profile_updates : dict) (updated : bool) :
  respects R (merge_fields profile_updates updated).
Proof.
  revert updated.
  induction profile_updates as [|[field v] rest IH]; intros updated; simpl.
  - walk.
  - apply respects_bind; [|intros ?; apply IH].
    unfold merge_field. walk; apply R_update_profile.
Qed.

Lemma respects_update_profile_from_facts (model : pystr) (facts : list pystr) :
  respects R (update_profile_from_facts model facts).
Proof.
  unfold update_profile_from_facts. destruct facts as [|fact facts]; [walk|].
  cbv zeta. do 3 (apply respects_bind; [walk|]; intros ?).
  apply respects_bind; [apply respects_chat_with_model|]. intros response.
  apply respects_bind; [|intros ?; walk].
  apply respects_try_except; [|intros e k [= <-]; walk].
  unfold apply_profile_reply. destruct response; walk.
  apply respects_merge_fields.
Qed.

Lemma respects_extract_name (user_message : pystr) :
  respects R (_extract_name_directly user_message).
Proof.
  unfold _extract_name_directly, name_heuristic, pattern_strategy, update_if_new.
  walk; apply R_update_profile.
Qed.

Lemma respects_get_memory_context : respects R get_memory_context.
Proof. unfold get_memory_context. walk. Qed.

Lemma respects_get_system_prompt : respects R get_system_prompt.
Proof.
  unfold get_system_prompt. apply respects_bind;
    [apply respects_get_memory_context | intros ?; walk].
Qed.

Lemma respects_add_facts (facts : list pystr) : respects R (add_facts facts).
Proof.
  induction facts as [|fact rest IH]; simpl; [walk|].
  apply respects_bind; [apply R_add_fact | intros ?; apply IH].
Qed.

Lemma respects_steps_1_to_5 (user_message : pystr) :
  respects R (steps_1_to_5 user_message).
Proof.
  unfold steps_1_to_5.
  apply respects_bind; [apply respects_extract_name|]. intros ?.
  apply respects_bind; [apply respects_get_memory_context|]. intros ?.
  apply respects_bind; [walk|]. intros ?.
  apply respects_bind; [apply respects_extract_facts|]. intros ?.
  apply respects_bind; [unfold with_name_fact; walk|]. intros new_facts.
  apply respects_bind; [apply respects_add_facts|]. intros ?.
  apply respects_bind; [|intros ?; walk].
  destruct new_facts; [walk | apply respects_update_profile_from_facts].
Qed.

Hypothesis R_history : ∀ role content, respects R (modify (with_message role content)).
Hypothesis R_log : ∀ user_message assistant_response extracted_facts,
  respects R (log_exchange user_message assistant_response extracted_facts).

Lemma respects_process_message (user_message : pystr) :
  respects R (process_message user_message).
Proof.
  unfold process_message, prepare_turn, answer_turn.
  apply respects_bind.
  - apply respects_bind; [apply respects_extract_name|]. intros ?.
    apply respects_bind; [apply respects_get_memory_context|]. intros ?.
    apply respects_bind; [walk|]. intros ?.
    apply respects_bind; [apply respects_extract_facts|]. intros ?.
    apply respects_bind; [unfold with_name_fact; walk|]. intros new_facts.
    apply respects_bind; [apply respects_add_facts|]. intros ?.
    apply respects_bind;
      [destruct new_facts; [walk | apply respects_update_profile_from_facts]|].
    intros ?.
    apply respects_bind; [apply (R_history "user")|]. intros ?.
    apply respects_bind; [apply respects_get_system_prompt | intros ?; walk].
  - intros [new_facts system_prompt]. simpl.
    do 2 (apply respects_bind; [walk|]; intros ?).
    apply respects_bind; [apply respects_chat_with_model|]. intros response.
    apply respects_bind; [apply R_log|]. intros ?.
    apply respects_bind; [apply (R_history "assistant") | intros ?; walk].
Qed.

End Walk.

Section TurnFrames.
Context `{Python}.

#[local] Instance extends_preorder : PreOrder extends.
Proof.
  split.
  - intros st. split; try done.
    + intros facts ->. exists []. by rewrite app_nil_r.
    + intros profile ->. by exists profile.
  - intros st1 st2 st3 [] []. split; try congruence.
    + lia.
    + by etrans.
    + by etrans.
    + by etrans.
    + intros facts Hf. destruct (more_facts0 facts Hf) as [more Hm].
      destruct (more_facts1 _ Hm) as [more' Hm'].
      exists (more ++ more'). by rewrite app_assoc.
    + intros profile Hp. destruct (same_profile_keys0 profile Hp) as (p1 & Hp1 & Hk1).
      destruct (same_profile_keys1 p1 Hp1) as (p2 & Hp2 & Hk2).
      exists p2. split; [done | congruence].
    + intros key Hkey. by rewrite other_sections1, other_sections0.
    + intros path Hpath Hfile. rewrite other_files1, other_files0; congruence.
    + intros path Hfile Hpath. etrans; [by apply more_log0|].
      apply more_log1; congruence.
Qed.

(** The states with the same memory *)
Lemma extends_same_memory (st st' : State) :
  memory st' = memory st ->
  model st' = model st -> current_session st' = current_session st ->
  current_file st' = current_file st -> server st' = server st ->
  clock st' = clock st -> (ticks st <= ticks st')%nat ->
  sent st `suffix_of` sent st' -> console st `prefix_of` console st' ->
  conversation_history st `prefix_of` conversation_history st' ->
  (∀ path, path ≠ MEMORY_FILE -> current_file st ≠ Some path ->
     fs st' !! path = fs st !! path) ->
  (∀ path, current_file st = Some path -> path ≠ MEMORY_FILE ->
     default [] (fs st !! path) `prefix_of` default [] (fs st' !! path)) ->
  extends st st'.
Proof.
  intros Hm. intros. split; try done; unfold memory_field; rewrite Hm.
  - intros facts ->. exists []. by rewrite app_nil_r.
  - intros profile ->. by exists profile.
  - done.
Qed.

(** The states that differ in the memory, its file and the clock *)
Lemma extends_memory (st st' : State) :
  model st' = model st -> current_session st' = current_session st ->
  current_file st' = current_file st -> server st' = server st ->
  clock st' = clock st -> (ticks st <= ticks st')%nat ->
  sent st' = sent st -> console st' = console st ->
  conversation_history st' = conversation_history st ->
  (∀ path, path ≠ MEMORY_FILE -> fs st' !! path = fs st !! path) ->
  (∀ facts, memory_field st (u "facts") = Some (VList facts) ->
     ∃ more, memory_field st' (u "facts") = Some (VList (facts ++ more))) ->
  (∀ profile, memory_field st (u "user_profile") = Some (VDict profile) ->
     ∃ profile', memory_field st' (u "user_profile") = Some (VDict profile')
                 ∧ profile'.*1 = profile.*1) ->
  (∀ key, key ∉ turn_sections -> memory_field st' key = memory_field st key) ->
  extends st st'.
Proof.
  intros ?????? Hsent Hconsole Hhistory Hfs ???. split; try done.
  - by rewrite Hsent.
  - by rewrite Hconsole.
  - by rewrite Hhistory.
  - intros path ? _. by apply Hfs.
  - intros path _ ?. by rewrite Hfs.
Qed.

Lemma not_turn_section (key : pystr) :
  key ∉ turn_sections ->
  u "user_profile" ≠ key ∧ u "facts" ≠ key ∧ u "updated_at" ≠ key.
Proof.
  unfold turn_sections. rewrite !not_elem_of_cons.
  intros (? & ? & ? & _). by split_and!.
Qed.

Lemma extends_update_profile (field : pystr) (v : value) :
  respects extends (update_profile field v).
Proof.
  intros st. unfold update_profile, _save_memory. run.
  destruct (memory st) as [| | | | |m|] eqn:Hm; run; try reflexivity.
  destruct (dict_get (u "user_profile") m) as [profile|] eqn:Hp; run;
    [|reflexivity].
  destruct profile as [| | |s|l|profile|]; run; try reflexivity.
  - destruct (contains field s); run; reflexivity.
  - destruct (existsb _ l); run; reflexivity.
  - case_bool_decide as Hfield; run; [|reflexivity].
    apply extends_memory; simpl; try done; try lia.
    + intros path Hpath. by rewrite lookup_insert_ne.
    + unfold memory_field. rewrite Hm. simpl. intros facts Hfacts.
      exists []. rewrite app_nil_r, <- Hfacts.
      rewrite !dict_get_set_ne by keys_differ. done.
    + unfold memory_field. rewrite Hm. simpl. intros p Hp'.
      assert (p = profile) as -> by congruence.
      eexists. split.
      * rewrite dict_get_set_ne by keys_differ. apply dict_get_set_eq.
      * by apply dict_set_keys.
    + unfold memory_field. rewrite Hm. simpl.
      intros key (? & ? & ?)%not_turn_section.
      by rewrite !dict_get_set_ne.
Qed.

Lemma extends_add_fact (fact category : pystr) :
  respects extends (add_fact fact category).
Proof.
  intros st. unfold add_fact, _save_memory. run.
  assert (Hticks : extends st (set_ticks (S (ticks st)) st)).
  { apply extends_same_memory; simpl; try done; lia. }
  destruct (memory st) as [| | | | |m|] eqn:Hm; run; try exact Hticks.
  destruct (dict_get (u "facts") m) as [facts|] eqn:Hf; run; [|exact Hticks].
  destruct facts as [| | | |facts| |]; run; try exact Hticks.
  apply extends_memory; simpl; try done; try lia.
  - intros path Hpath. by rewrite lookup_insert_ne.
  - unfold memory_field. rewrite Hm. simpl. intros l Hl.
    assert (l = facts) as -> by congruence.
    eexists. rewrite dict_get_set_ne by keys_differ. apply dict_get_set_eq.
  - unfold memory_field. rewrite Hm. simpl. intros p Hp.
    exists p. split; [|done]. by rewrite !dict_get_set_ne by keys_differ.
  - unfold memory_field. rewrite Hm. simpl.
    intros key (? & ? & ?)%not_turn_section.
    by rewrite !dict_get_set_ne.
Qed.

Lemma extends_print (s : pystr) : respects extends (print s).
Proof.
  intros st. unfold print. run.
  apply extends_same_memory; simpl; try done. by apply prefix_app_r.
Qed.

Lemma extends_post (r : request) : respects extends (post r).
Proof.
  intros st. unfold post. simpl.
  apply extends_same_memory; simpl; try done. by apply suffix_cons_r.
Qed.

Lemma extends_history (role : string) (content : value) :
  respects extends (modify (with_message role content)).
Proof.
  intros st. unfold with_message. run.
  apply extends_same_memory; simpl; try done. by apply prefix_app_r.
Qed.

Lemma extends_log (user_message : pystr) (assistant_response : value)
    (extracted_facts : list pystr) :
  respects extends (log_exchange user_message assistant_response extracted_facts).
Proof.
  intros st. unfold log_exchange, append_json. run.
  destruct (current_file st) as [file|] eqn:Hfile; run; [|reflexivity].
  apply extends_same_memory; simpl; try done; try lia.
  - intros path _ Hpath. rewrite lookup_insert_ne; congruence.
  - intros path Hpath _. assert (path = file) as -> by congruence.
    rewrite lookup_insert. simpl.
    rewrite decide_True by done. by apply prefix_app_r.
Qed.

(** X7.  A turn only adds.  Whatever the message, the server's replies and the
    outcome, [process_message] leaves the model, the session, the log
    file's name, the server and the clock as they are; the requests sent,
    the console, the history, the facts of the memory and the log file only
    grow at their end; the profile keeps its keys; the sections of the
    memory other than the profile, the facts and [updated_at] keep their
    values; and no file but the memory file and the log is written. *)
Theorem turn_only_adds (user_message : pystr) (st : State) :
  extends st (process_message user_message st).2.
Proof.
  apply (respects_process_message extends).
  - apply extends_print.
  - apply extends_post.
  - apply extends_update_profile.
  - apply extends_add_fact.
  - apply extends_history.
  - apply extends_log.
Qed.

End TurnFrames.

Section QuietSteps.
Context `{Python}.

#[local] Instance quiet_preorder : PreOrder quiet.
Proof.
  split.
  - by intros st.
  - intros st1 st2 st3 (Hh & Hf & Hfs) (Hh' & Hf' & Hfs').
    split_and!; [congruence..|].
    intros path Hpath. by rewrite Hfs', Hfs.
Qed.

Lemma quiet_update_profile (field : pystr) (v : value) :
  respects quiet (update_profile field v).
Proof.
  intros st. unfold update_profile, _save_memory. run.
  destruct (memory st) as [| | | | |m|] eqn:Hm; run; try reflexivity.
  destruct (dict_get (u "user_profile") m) as [profile|] eqn:Hp; run;
    [|reflexivity].
  destruct profile as [| | |s|l|profile|]; run; try reflexivity.
  - destruct (contains field s); run; reflexivity.
  - destruct (existsb _ l); run; reflexivity.
  - case_bool_decide as Hfield; run; [|reflexivity].
    split_and!; try done. intros path Hpath. simpl. by rewrite lookup_insert_ne.
Qed.

Lemma quiet_add_fact (fact category : pystr) :
  respects quiet (add_fact fact category).
Proof.
  intros st. unfold add_fact, _save_memory. run.
  assert (Hticks : quiet st (set_ticks (S (ticks st)) st)) by done.
  destruct (memory st) as [| | | | |m|] eqn:Hm; run; try exact Hticks.
  destruct (dict_get (u "facts") m) as [facts|] eqn:Hf; run; [|exact Hticks].
  destruct facts as [| | | |facts| |]; run; try exact Hticks.
  split_and!; try done. intros path Hpath. simpl. by rewrite lookup_insert_ne.
Qed.

Lemma quiet_steps_1_to_5 (user_message : pystr) :
  respects quiet (steps_1_to_5 user_message).
Proof.
  apply (respects_steps_1_to_5 quiet); try done.
  - apply quiet_update_profile.
  - apply quiet_add_fact.
Qed.

Lemma quiet_get_system_prompt : respects quiet get_system_prompt.
Proof. apply (respects_get_system_prompt quiet). Qed.

Lemma quiet_chat_with_model (model : pystr) (messages : list value)
    (system_prompt : option pystr) (stream : bool) :
  respects quiet (chat_with_model model messages system_prompt stream).
Proof. by apply (respects_chat_with_model quiet). Qed.

(** [prepare_turn] is the first five steps, the user's message added to
    the history, and the system prompt. *)
Lemma prepare_turn_steps (user_message : pystr) (st : State) :
  prepare_turn user_message st
  = (new_facts ← steps_1_to_5 user_message;
     modify (with_message "user" (VStr user_message));;
     system_prompt ← get_system_prompt;
     mret (new_facts, system_prompt)) st.
Proof.
  unfold prepare_turn, steps_1_to_5.
  generalize _extract_name_directly, get_memory_context,
    extract_facts_from_conversation, with_name_fact, add_facts,
    update_profile_from_facts, get_system_prompt.
  intros c1 c2 c3 c4 c5 c6 c7.
  unfold mbind, M_bind, mret, M_ret, gets, modify, with_message.
  repeat (match goal with
          | |- context [match ?x with _ => _ end] =>
              lazymatch x with
              | context [match _ with _ => _ end] => fail
              | _ => destruct x
              end
          end; simpl; try reflexivity).
Qed.

(** [process_message], step by step *)
Lemma process_message_run (user_message : pystr) (st : State) :
  process_message user_message st
  = match steps_1_to_5 user_message st with
    | (Raise e, st1) => (Raise e, st1)
    | (Ok new_facts, st1) =>
        match get_system_prompt (with_message "user" (VStr user_message) st1) with
        | (Raise e, st2) => (Raise e, st2)
        | (Ok system_prompt, st2) =>
            match chat_with_model (model st2) (conversation_history st2)
                    (Some system_prompt) true st2 with
            | (Raise e, st3) => (Raise e, st3)
            | (Ok answer, st3) =>
                (Ok answer,
                 with_message "assistant" answer
                   (log_exchange user_message answer new_facts st3).2)
            end
        end
    end.
Proof.
  unfold process_message. unfold mbind, M_bind.
  rewrite prepare_turn_steps. unfold answer_turn.
  generalize steps_1_to_5, get_system_prompt, chat_with_model.
  intros c1 c2 c3.
  unfold mbind, M_bind, mret, M_ret, gets, modify.
  destruct (c1 user_message st) as [[new_facts|e] st1]; [|done].
  destruct (c2 _) as [[system_prompt|e] st2]; [|done]. cbn [fst snd].
  destruct (c3 _ _ _ _ _) as [[answer|e] st3]; [|done].
  unfold log_exchange, append_json, mbind, M_bind, mret, M_ret, gets, modify, now.
  by destruct (current_file st3).
Qed.

(** The three ways in which a turn ends: before the history is touched;
    after the user's message has gone into it; and with an answer, which
    is logged and goes into the history. *)
Lemma process_message_cases (user_message : pystr) (st : State) :
  (∃ e st1, process_message user_message st = (Raise e, st1) ∧ quiet st st1)
  ∨ (∃ e st1 st2,
       process_message user_message st = (Raise e, st2)
       ∧ quiet st st1
       ∧ quiet (with_message "user" (VStr user_message) st1) st2)
  ∨ (∃ new_facts answer st1 st2,
       process_message user_message st
       = (Ok answer,
          with_message "assistant" answer
            (log_exchange user_message answer new_facts st2).2)
       ∧ quiet st st1
       ∧ quiet (with_message "user" (VStr user_message) st1) st2).
Proof.
  rewrite process_message_run.
  pose proof (quiet_steps_1_to_5 user_message st) as H1.
  destruct (steps_1_to_5 user_message st) as [[new_facts|e] st1]; simpl in H1;
    [|left; exists e, st1; by split].
  right.
  pose proof (quiet_get_system_prompt
                (with_message "user" (VStr user_message) st1)) as H2.
  destruct (get_system_prompt _) as [[system_prompt|e] st2]; simpl in H2;
    [|left; exists e, st1, st2; by split_and!].
  pose proof (quiet_chat_with_model (model st2) (conversation_history st2)
                (Some system_prompt) true st2) as H3.
  destruct (chat_with_model _ _ _ _ st2) as [[answer|e] st3]; simpl in H3.
  - right. exists new_facts, answer, st1, st3. split_and!; [done..|by etrans].
  - left. exists e, st1, st3. split_and!; [done..|by etrans].
Qed.

(** X9.  The history after a turn.  A turn that gives an answer adds the
    user's message and the answer, in this order, to the history and
    nothing else; a turn that raises leaves the history as it was or leaves
    it with the user's message alone at its end. *)
Theorem turn_extends_history (user_message : pystr) (st : State) :
  match process_message user_message st with
  | (Ok answer, st') =>
      conversation_history st'
      = conversation_history st
        ++ [message "user" (VStr user_message); message "assistant" answer]
  | (Raise _, st') =>
      conversation_history st' = conversation_history st
      ∨ conversation_history st'
        = conversation_history st ++ [message "user" (VStr user_message)]
  end.
Proof.
  destruct (process_message_cases user_message st)
    as [(e & st1 & -> & Hh & _)
       |[(e & st1 & st2 & -> & (Hh1 & _) & (Hh2 & _))
        |(new_facts & answer & st1 & st2 & -> & (Hh1 & _) & (Hh2 & _))]].
  - by left.
  - right. rewrite Hh2. simpl. by rewrite Hh1.
  - simpl. unfold log_exchange, append_json. run.
    destruct (current_file st2); simpl; rewrite Hh2; simpl;
      by rewrite Hh1, <- app_assoc.
Qed.

(** X10.  The log after a turn.  A turn that gives an answer, in a session with
    a log file other than the memory file, adds one record to the end of
    the log: the user's message and the answer that was returned. *)
Theorem turn_logs_one_exchange (user_message : pystr) (st st' : State)
    (path : string) (answer : value) :
  current_file st = Some path ->
  path ≠ MEMORY_FILE ->
  process_message user_message st = (Ok answer, st') ->
  ∃ timestamp new_facts,
    fs st' !! path
    = Some (default [] (fs st !! path)
            ++ [exchange_record timestamp user_message answer new_facts]).
Proof.
  intros Hfile Hpath Hrun.
  destruct (process_message_cases user_message st)
    as [(e & st1 & Hrun' & _)
       |[(e & st1 & st2 & Hrun' & _)
        |(new_facts & answer' & st1 & st2 & Hrun' & H1 & H2)]];
    try congruence.
  rewrite Hrun in Hrun'. injection Hrun' as -> ->.
  destruct H1 as (_ & Hf1 & Hfs1). destruct H2 as (_ & Hf2 & Hfs2).
  simpl in Hf2. simpl in Hfs2.
  assert (Hfile2 : current_file st2 = Some path) by congruence.
  exists (clock st2 (ticks st2)), new_facts.
  unfold log_exchange, append_json. run. rewrite Hfile2. run.
  rewrite lookup_insert. rewrite decide_True by done.
  by rewrite Hfs2, Hfs1.
Qed.

End QuietSteps.

(** ** Search, the profile command and the streamed answer *)

Section Commands.
Context `{Python}.

Lemma fact_text_lower_of (fact : value) (text : pystr) :
  has_text fact text -> fact_text_lower fact = Ok (str_lower text).
Proof. unfold has_text, fact_text_lower. by intros ->. Qed.

Lemma fact_matches_of (query : pystr) (fact : value) (text : pystr) :
  has_text fact text ->
  fact_matches query fact = contains (str_lower query) (str_lower text).
Proof. unfold has_text, fact_matches. by intros ->. Qed.

Lemma matching_facts_filter (query : pystr) (facts : list value) :
  Forall (fun fact => ∃ text, has_text fact text) facts ->
  matching_facts (str_lower query) facts
  = Ok (List.filter (fact_matches query) facts).
Proof.
  induction 1 as [|fact facts [text Htext] _ IH]; [done|].
  simpl. rewrite (fact_text_lower_of fact text Htext). run. rewrite IH. run.
  by rewrite (fact_matches_of query fact text Htext).
Qed.

(** X11.  [search_facts] filters the facts.  On a memory whose facts all
    have a text it returns the stored list with the facts left out whose
    text does not contain the query, both taken in lower case: the facts
    that match, each as often as it is stored, in the stored order. *)
Theorem search_facts_filters (m : dict) (facts : list value) (query : pystr) :
  dict_get (u "facts") m = Some (VList facts) ->
  Forall (fun fact => ∃ text, has_text fact text) facts ->
  search_facts (VDict m) query = Ok (List.filter (fact_matches query) facts)
  ∧ List.filter (fact_matches query) facts `sublist_of` facts
  ∧ ∀ fact text, has_text fact text ->
      (fact ∈ List.filter (fact_matches query) facts
       ↔ fact ∈ facts ∧ contains (str_lower query) (str_lower text) = true).
Proof.
  intros Hfacts Htexts. split_and!.
  - unfold search_facts. simpl. rewrite Hfacts. simpl.
    by apply matching_facts_filter.
  - clear. induction facts as [|fact facts IH]; simpl; [done|].
    destruct (fact_matches query fact);
      [by apply sublist_skip | by apply sublist_cons].
  - intros fact text Htext.
    rewrite list_elem_of_In, filter_In, <- list_elem_of_In.
    by rewrite (fact_matches_of query fact text Htext).
Qed.






End Commands.

(** ** Repeating a sentence *)

Section Repetition.
Context `{Python}.






End Repetition.

(** * Further examples *)

Section FurtherExamples.
#[local] Existing Instance latin_cyrillic.

Ltac compute_eq := vm_compute; reflexivity.

(** The profile has a field "location" and no field "hobby"; a name that
    holds half of a surrogate pair is set in memory and cannot be saved. *)
Lemma update_profile_writes_known_fields_only_witness :
  (∃ st', update_profile_strict (u "location") (VStr (u "Oslo")) ann_session
          = (Ok true, st')
          ∧ profile_field st' (u "location") = Some (VStr (u "Oslo"))
          ∧ profile_field st' (u "name") = Some (VStr (u "Ann"))
          ∧ synced st')
  ∧ update_profile_strict (u "hobby") (VStr (u "джаз")) ann_session
    = (Ok false, ann_session)
  ∧ (∃ st', update_profile_strict (u "name") (VStr [55357%N]) ann_session
            = (Raise UnicodeEncodeError, st')
            ∧ profile_field st' (u "name") = Some (VStr [55357%N])
            ∧ damaged st').
Proof.
  split_and!.
  - destruct (update_profile_writes_known_fields_only ann_session
                (example_memory_dict (example_profile (VStr (u "Ann")) VNone))
                (example_profile (VStr (u "Ann")) VNone)
                (u "location") (VStr (u "Oslo")) eq_refl)
      as [_ Hknown]; [compute_eq|].
    destruct Hknown as (st' & Hrun & _ & Hfield & Hother & _ & Hfile);
      [by eexists|].
    exists st'. split_and!.
    + rewrite Hrun. compute_eq.
    + exact Hfield.
    + rewrite Hother; [compute_eq | keys_differ].
    + revert Hfile. by vm_compute (encodable _).
  - destruct (update_profile_writes_known_fields_only ann_session
                (example_memory_dict (example_profile (VStr (u "Ann")) VNone))
                (example_profile (VStr (u "Ann")) VNone)
                (u "hobby") (VStr (u "джаз")) eq_refl)
      as [Hunknown _]; [compute_eq|].
    apply Hunknown. compute_eq.
  - destruct (update_profile_writes_known_fields_only ann_session
                (example_memory_dict (example_profile (VStr (u "Ann")) VNone))
                (example_profile (VStr (u "Ann")) VNone)
                (u "name") (VStr [55357%N]) eq_refl)
      as [_ Hknown]; [compute_eq|].
    destruct Hknown as (st' & Hrun & _ & Hfield & _ & _ & Hfile);
      [by eexists|].
    exists st'. split_and!.
    + rewrite Hrun. compute_eq.
    + exact Hfield.
    + revert Hfile. by vm_compute (encodable _).
Defined.

(** The first fact of a first session, and a fact that cannot be saved *)
Lemma add_fact_appends_witness :
  (∃ st',
     (add_fact_strict (u "Любит джаз") (u "general") first_session).2 = st'
     ∧ memory_field st' (u "facts")
       = Some (VList [VDict [(u "fact", VStr (u "Любит джаз"));
                             (u "category", VStr (u "general"));
                             (u "added_at", VStr (u "2025-01-15T10:00:02"));
                             (u "session", VStr (u "2025-01-15"))]])
     ∧ synced st')
  ∧ (∃ st',
       add_fact_strict [55357%N] (u "general") first_session
       = (Raise UnicodeEncodeError, st')
       ∧ damaged st').
Proof.
  split.
  - destruct (add_fact_appends first_session
                (example_memory_dict (example_profile VNone VNone)) []
                (u "Любит джаз") (u "general"))
      as (st' & Hrun & _ & Hfacts & _ & _ & Hfile); [reflexivity | compute_eq |].
    exists st'. split_and!.
    + by rewrite Hrun.
    + rewrite Hfacts. compute_eq.
    + revert Hfile. by vm_compute (encodable _).
  - destruct (add_fact_appends first_session
                (example_memory_dict (example_profile VNone VNone)) []
                [55357%N] (u "general"))
      as (st' & Hrun & _ & _ & _ & _ & Hfile); [reflexivity | compute_eq |].
    exists st'. split.
    + rewrite Hrun. compute_eq.
    + revert Hfile. by vm_compute (encodable _).
Defined.

(** An empty memory file: the warning and the empty schema *)
Lemma load_memory_falls_back_to_empty_witness :
  ∃ m st', _load_memory damaged_session = (Ok m, st')
           ∧ memory_field (set_memory m st') (u "facts") = Some (VList [])
           ∧ length (console st') = 1.
Proof.
  destruct (load_memory_falls_back_to_empty damaged_session) as (_ & Hbad & _).
  destruct (Hbad []) as [warning Hrun]; [compute_eq | done |].
  rewrite Hrun. eexists _, _. split_and!; compute_eq.
Defined.

Lemma new_store_renders_sentinel_witness :
  ((MemorySystem_init;; get_memory_context) first_session).1 = Ok MEMORY_EMPTY.
Proof. apply new_store_renders_sentinel. reflexivity. Defined.



(** The greeting and its answer in the log *)
Lemma turn_logs_one_exchange_witness :
  ∃ timestamp new_facts,
    fs (process_message (u "Привет") petya_session).2 !! example_log
    = Some (default [] (fs petya_session !! example_log)
            ++ [exchange_record timestamp (u "Привет") (VStr (u "Привет!"))
                  new_facts]).
Proof.
  apply (turn_logs_one_exchange (u "Привет") petya_session);
    [reflexivity | intros [=] | compute_eq].
Defined.

(** The query "ДЖАЗ" finds the fact about jazz and not the other. *)
Lemma search_facts_filters_witness :
  search_facts (VDict facts_memory) (u "ДЖАЗ")
  = Ok [example_fact "Любит джаз" 0].
Proof.
  destruct (search_facts_filters facts_memory example_facts (u "ДЖАЗ"))
    as (Hrun & _ & _).
  - compute_eq.
  - repeat constructor; eexists; reflexivity.
  - rewrite Hrun. compute_eq.
Defined.





End FurtherExamples.
